(** * Insurance lead import: consent gate, field encryption, audit trail
      and persistence

    A shallow embedding of [automation/insurance_lead_import.py].

    - A Python [str] is a Rocq [string] (its UTF-8 bytes); [bytes] is
      [list byte]; [Optional[str]] is [option string].
    - Exceptions are values of [exn]; a call that may raise returns a
      [result].
    - The outside world (the PostgreSQL table, the S3 bucket, the audit file,
      the logging handlers) is an explicit [World] threaded through the
      importer's methods.  What the outside world answers to one record
      (does the database accept the statement, does S3 accept the object,
      which timestamp and IV does Fernet draw) is an explicit [RecordEnv].
    - [cryptography.fernet.Fernet] is a library outside the repository: it is
      an interface ([FernetAPI]) with its documented contract
      ([FernetContract]). *)

From Stdlib Require Import Strings.String Strings.Ascii Strings.Byte.
From stdpp Require Import base option list strings gmap pretty.

Open Scope string_scope.

(** ** Python values *)

Inductive exn : Type :=
  | Exception (cls : string) (msg : string).

(** [str(e)] *)
Definition str_of_exn (e : exn) : string :=
  match e with Exception _ msg => msg end.

Inductive result (A : Type) : Type :=
  | Ok (a : A)
  | Raise (e : exn).
Arguments Ok {A} a.
Arguments Raise {A} e.

(** [bool(s)] for a [str]: the empty string is falsy. *)
Definition truthy (s : string) : bool :=
  match s with
  | EmptyString => false
  | String _ _ => true
  end.

(** [bool(v)] for an [Optional[str]]: [None] and the empty string are falsy. *)
Definition truthy_opt (v : option string) : bool :=
  match v with
  | None => false
  | Some s => truthy s
  end.

(** [s.encode()] and [b.decode()] *)
Definition str_encode (s : string) : list byte := list_byte_of_string s.
Definition bytes_decode (b : list byte) : string := string_of_list_byte b.

(** [s[:n]] *)
Definition str_prefix (n : nat) (s : string) : string := String.substring 0 n s.

(** ** The Fernet library, as an interface *)

Class FernetAPI : Type := {
  (** a [Fernet] object, holding its key *)
  fernet : Type;
  (** what one call of [Fernet.encrypt] draws from outside: the current time
      and a fresh 128-bit IV from [os.urandom] *)
  entropy : Type;
  (** [Fernet(key)]; [None] is the [ValueError] for a malformed key *)
  Fernet : list byte -> option fernet;
  (** [Fernet.generate_key()], from the random bytes it draws *)
  Fernet_generate_key : entropy -> list byte;
  (** [Fernet.encrypt(data)] with the drawn time and IV made explicit *)
  Fernet_encrypt : fernet -> entropy -> list byte -> list byte;
  (** [Fernet.decrypt(token)]; [None] is [InvalidToken] *)
  Fernet_decrypt : fernet -> list byte -> option (list byte)
}.

(** The documented behaviour of Fernet: a token decrypts to the message it was
    made from; a token is the concatenation
    version ‖ timestamp ‖ IV ‖ ciphertext ‖ HMAC, so it is longer than the
    message and it carries the time and IV of the call that made it; a
    generated key is a valid key. *)
Class FernetContract (F : FernetAPI) : Prop := {
  Fernet_decrypt_encrypt :
    forall (c : fernet) (r : entropy) (m : list byte),
      Fernet_decrypt c (Fernet_encrypt c r m) = Some m;
  Fernet_token_longer :
    forall (c : fernet) (r : entropy) (m : list byte),
      length m < length (Fernet_encrypt c r m);
  Fernet_token_entropy :
    forall (c : fernet) (r r' : entropy) (m : list byte),
      Fernet_encrypt c r m = Fernet_encrypt c r' m -> r = r';
  Fernet_generate_key_valid :
    forall (r : entropy), is_Some (Fernet (Fernet_generate_key r))
}.

(** ** [InsuranceLead] *)

Record InsuranceLead : Type := mkInsuranceLead {
  lead_id : string;
  source : string;
  first_name : string;
  last_name : string;
  email : string;
  phone : string;
  date_of_birth : option string;
  zip_code : option string;
  state : option string;
  coverage_type : option string;
  household_income : option string;
  health_conditions : option string;
  current_coverage : option bool;
  preferred_contact_time : option string;
  notes : option string;
  created_at : string;
  imported_at : string;
  consent_given : bool;
  tcpa_compliant : bool
}.

(** The attribute names that [get_hipaa_fields] returns. *)
Inductive hipaa_field : Type :=
  | Fdate_of_birth
  | Fhousehold_income
  | Fhealth_conditions
  | Fphone
  | Femail.

Definition field_name (f : hipaa_field) : string :=
  match f with
  | Fdate_of_birth => "date_of_birth"
  | Fhousehold_income => "household_income"
  | Fhealth_conditions => "health_conditions"
  | Fphone => "phone"
  | Femail => "email"
  end.

Definition get_hipaa_fields (self : InsuranceLead) : list hipaa_field :=
  [Fdate_of_birth; Fhousehold_income; Fhealth_conditions; Fphone; Femail].

(** [getattr(lead, field)] on the five attributes above. *)
Definition getattr (l : InsuranceLead) (f : hipaa_field) : option string :=
  match f with
  | Fdate_of_birth => date_of_birth l
  | Fhousehold_income => household_income l
  | Fhealth_conditions => health_conditions l
  | Fphone => Some (phone l)
  | Femail => Some (email l)
  end.

(** [setattr(lead, field, value)] with a [str] value. *)
Definition setattr (l : InsuranceLead) (f : hipaa_field) (v : string)
  : InsuranceLead :=
  match f with
  | Fdate_of_birth =>
      mkInsuranceLead (lead_id l) (source l) (first_name l) (last_name l)
        (email l) (phone l) (Some v) (zip_code l) (state l)
        (coverage_type l) (household_income l) (health_conditions l)
        (current_coverage l) (preferred_contact_time l) (notes l)
        (created_at l) (imported_at l) (consent_given l) (tcpa_compliant l)
  | Fhousehold_income =>
      mkInsuranceLead (lead_id l) (source l) (first_name l) (last_name l)
        (email l) (phone l) (date_of_birth l) (zip_code l) (state l)
        (coverage_type l) (Some v) (health_conditions l)
        (current_coverage l) (preferred_contact_time l) (notes l)
        (created_at l) (imported_at l) (consent_given l) (tcpa_compliant l)
  | Fhealth_conditions =>
      mkInsuranceLead (lead_id l) (source l) (first_name l) (last_name l)
        (email l) (phone l) (date_of_birth l) (zip_code l) (state l)
        (coverage_type l) (household_income l) (Some v)
        (current_coverage l) (preferred_contact_time l) (notes l)
        (created_at l) (imported_at l) (consent_given l) (tcpa_compliant l)
  | Fphone =>
      mkInsuranceLead (lead_id l) (source l) (first_name l) (last_name l)
        (email l) v (date_of_birth l) (zip_code l) (state l)
        (coverage_type l) (household_income l) (health_conditions l)
        (current_coverage l) (preferred_contact_time l) (notes l)
        (created_at l) (imported_at l) (consent_given l) (tcpa_compliant l)
  | Femail =>
      mkInsuranceLead (lead_id l) (source l) (first_name l) (last_name l)
        v (phone l) (date_of_birth l) (zip_code l) (state l)
        (coverage_type l) (household_income l) (health_conditions l)
        (current_coverage l) (preferred_contact_time l) (notes l)
        (created_at l) (imported_at l) (consent_given l) (tcpa_compliant l)
  end.

(** The copy made by rebuilding an [InsuranceLead] from [lead.to_dict()]. *)
Definition to_dict_copy (l : InsuranceLead) : InsuranceLead :=
  mkInsuranceLead (lead_id l) (source l) (first_name l) (last_name l)
    (email l) (phone l) (date_of_birth l) (zip_code l) (state l)
    (coverage_type l) (household_income l) (health_conditions l)
    (current_coverage l) (preferred_contact_time l) (notes l)
    (created_at l) (imported_at l) (consent_given l) (tcpa_compliant l).

(** ** [HIPAACompliantEncryption] *)

Module HIPAACompliantEncryption.
Section WithFernet.
Context {F : FernetAPI}.

Record t : Type := mk { cipher : fernet }.

(** [__init__(self, key)]: a [str] key is encoded first; [Fernet(key)]
    raises [ValueError] on a malformed key. *)
Definition init (key : string + list byte) : result t :=
  let key :=
    match key with
    | inl s => str_encode s
    | inr b => b
    end in
  match Fernet key with
  | Some c => Ok (mk c)
  | None =>
      Raise (Exception "ValueError"
               "Fernet key must be 32 url-safe base64-encoded bytes.")
  end.

(** [encrypt(self, data)]; [r] is what the Fernet call draws. *)
Definition encrypt (self : t) (r : entropy) (data : string) : string :=
  if negb (truthy data) then EmptyString
  else bytes_decode (Fernet_encrypt (cipher self) r (str_encode data)).

(** [decrypt(self, encrypted_data)] *)
Definition decrypt (self : t) (encrypted_data : string) : result string :=
  if negb (truthy encrypted_data) then Ok EmptyString
  else
    match Fernet_decrypt (cipher self) (str_encode encrypted_data) with
    | Some m => Ok (bytes_decode m)
    | None => Raise (Exception "InvalidToken" EmptyString)
    end.
End WithFernet.
End HIPAACompliantEncryption.

(** ** The outside world *)

(** Levels of the [logging] module. *)
Inductive level : Type := DEBUG | INFO | WARNING | ERROR.

Definition levelno (l : level) : nat :=
  match l with
  | DEBUG => 10
  | INFO => 20
  | WARNING => 30
  | ERROR => 40
  end.

Record LogRecord : Type := mkLogRecord {
  levelname : level;
  message : string
}.

(** The values that occur in the [details] mapping of an audit event. *)
Inductive json : Type :=
  | JNull
  | JBool (b : bool)
  | JStr (s : string).

Definition json_of_opt (v : option string) : json :=
  match v with
  | None => JNull
  | Some s => JStr s
  end.

(** One line of the audit file. *)
Record AuditEvent : Type := mkAuditEvent {
  timestamp : string;
  event_type : string;
  event_lead_id : string;
  details : list (string * json);
  user : string;
  ip_address : string
}.

(** Which private method of [LeadImporter] was entered, and with which
    record.  The trace is kept by the model only; it is what a statement
    such as "the record is never passed to the store" speaks about. *)
Inductive Call : Type :=
  | Call_encrypt_lead (lead : InsuranceLead)
  | Call_store_lead (lead : InsuranceLead)
  | Call_archive_to_s3 (lead : InsuranceLead).

Record World : Type := mkWorld {
  (** rows of the table [insurance_leads], in insertion order *)
  insurance_leads : list InsuranceLead;
  (** objects of the bucket [S3_BUCKET], by key *)
  bucket : gmap string InsuranceLead;
  (** lines of [/tmp/insurance_lead_audit.jsonl] *)
  audit_file : list AuditEvent;
  (** records that reached the logging handlers *)
  log : list LogRecord;
  calls : list Call
}.

(** What the outside answers while one record is processed. *)
Record RecordEnv {F : FernetAPI} : Type := mkRecordEnv {
  (** the time and IV drawn by the [Fernet.encrypt] call for each field *)
  drawn : hipaa_field -> entropy;
  (** [Some e]: psycopg2 raises [e] while the record is stored *)
  db_raises : option exn;
  (** [Some e]: [put_object] raises [e] *)
  s3_raises : option exn;
  (** [datetime.now(timezone.utc).isoformat()] in [log_event] *)
  now_iso : string;
  (** the body of the answer of api.ipify.org; [None]: the request fails *)
  ipify : option string
}.

(** ** Computations that change the world and may raise *)

Definition M (A : Type) : Type := World -> result A * World.

Definition ret {A : Type} (a : A) : M A := fun w => (Ok a, w).

Definition bind {A B : Type} (m : M A) (k : A -> M B) : M B :=
  fun w =>
    match m w with
    | (Ok a, w') => k a w'
    | (Raise e, w') => (Raise e, w')
    end.

Definition raise {A : Type} (e : exn) : M A := fun w => (Raise e, w).

(** [try: body  except Exception as e: handler(e)] *)
Definition try_except {A : Type} (body : M A) (handler : exn -> M A) : M A :=
  fun w =>
    match body w with
    | (Ok a, w') => (Ok a, w')
    | (Raise e, w') => handler e w'
    end.

Definition modify (f : World -> World) : M unit := fun w => (Ok tt, f w).

Declare Scope py_scope.
Delimit Scope py_scope with py.
Notation "x <- m ;; k" := (bind m (fun x => k))
  (at level 100, m at next level, right associativity) : py_scope.
Notation "m ;; k" := (bind m (fun _ => k))
  (at level 100, right associativity) : py_scope.
Open Scope py_scope.

Definition set_insurance_leads (rows : list InsuranceLead) (w : World) : World :=
  mkWorld rows (bucket w) (audit_file w) (log w) (calls w).

Definition set_bucket (b : gmap string InsuranceLead) (w : World) : World :=
  mkWorld (insurance_leads w) b (audit_file w) (log w) (calls w).

Definition set_audit_file (a : list AuditEvent) (w : World) : World :=
  mkWorld (insurance_leads w) (bucket w) a (log w) (calls w).

Definition set_log (l : list LogRecord) (w : World) : World :=
  mkWorld (insurance_leads w) (bucket w) (audit_file w) l (calls w).

Definition set_calls (c : list Call) (w : World) : World :=
  mkWorld (insurance_leads w) (bucket w) (audit_file w) (log w) c.

Definition entered (c : Call) : M unit :=
  modify (fun w => set_calls (calls w ++ [c]) w).

(** [logging.basicConfig(level=logging.INFO, ...)]: a record below [INFO]
    reaches no handler. *)
Definition logger (lvl : level) (msg : string) : M unit :=
  modify (fun w =>
    if Nat.leb (levelno INFO) (levelno lvl)
    then set_log (log w ++ [mkLogRecord lvl msg]) w
    else w).

(** ** [AuditLogger] *)

Module AuditLogger.
Section WithEnv.
Context {F : FernetAPI}.
Variable environ : gmap string string.

(** [_get_ip_address]: any failure of the request gives 'unknown'. *)
Definition _get_ip_address (env : RecordEnv) : string :=
  match ipify env with
  | Some text => text
  | None => "unknown"
  end.

(** [log_event]: the line is appended to the audit file (the write itself is
    taken to succeed), then an INFO record is logged. *)
Definition log_event (env : RecordEnv) (event_type : string)
    (lead_id : string) (details : list (string * json)) : M unit :=
  let event :=
    mkAuditEvent (now_iso env) event_type lead_id details
      (default "system" (environ !! "USER"))
      (_get_ip_address env) in
  modify (fun w => set_audit_file (audit_file w ++ [event]) w);;
  logger INFO ("Audit: " ++ event_type ++ " for lead " ++ lead_id).
End WithEnv.
End AuditLogger.

(** ** The table [insurance_leads] *)

Definition set_imported_at (v : string) (l : InsuranceLead) : InsuranceLead :=
  mkInsuranceLead (lead_id l) (source l) (first_name l) (last_name l)
    (email l) (phone l) (date_of_birth l) (zip_code l) (state l)
    (coverage_type l) (household_income l) (health_conditions l)
    (current_coverage l) (preferred_contact_time l) (notes l)
    (created_at l) v (consent_given l) (tcpa_compliant l).

Definition has_key (k : string) (row : InsuranceLead) : bool :=
  String.eqb (lead_id row) k.

(** [INSERT INTO insurance_leads VALUES (...)
     ON CONFLICT (lead_id) DO UPDATE SET imported_at = EXCLUDED.imported_at] *)
Definition insert_on_conflict (lead : InsuranceLead)
    (rows : list InsuranceLead) : list InsuranceLead :=
  if existsb (has_key (lead_id lead)) rows
  then
    map (fun row =>
           if has_key (lead_id lead) row
           then set_imported_at (imported_at lead) row
           else row)
        rows
  else rows ++ [lead].

(** The rows with a given [lead_id]. *)
Definition select_by_id (k : string) (rows : list InsuranceLead)
  : list InsuranceLead :=
  List.filter (has_key k) rows.

(** The constraint [lead_id VARCHAR(255) PRIMARY KEY]. *)
Definition primary_key (rows : list InsuranceLead) : Prop :=
  NoDup (map lead_id rows).

(** ** [LeadImporter] *)

Module LeadImporter.
Section WithFernet.
Context {F : FernetAPI}.
Variable environ : gmap string string.

Record t : Type := mk { encryption : HIPAACompliantEncryption.t }.

(** One pass of the loop of [_encrypt_lead]. *)
Definition encrypt_field (self : t) (env : RecordEnv)
    (encrypted_lead : InsuranceLead) (field : hipaa_field) : InsuranceLead :=
  let value := getattr encrypted_lead field in
  match value with
  | Some s =>
      if truthy s
      then
        let encrypted_value :=
          HIPAACompliantEncryption.encrypt (encryption self)
            (drawn env field) s in
        setattr encrypted_lead field encrypted_value
      else encrypted_lead
  | None => encrypted_lead
  end.

Definition _encrypt_lead (self : t) (env : RecordEnv) (lead : InsuranceLead)
  : InsuranceLead :=
  let encrypted_lead := to_dict_copy lead in
  fold_left (encrypt_field self env) (get_hipaa_fields lead) encrypted_lead.

(** [_store_lead]: nothing is committed when psycopg2 raises. *)
Definition _store_lead (env : RecordEnv) (lead : InsuranceLead) : M unit :=
  entered (Call_store_lead lead);;
  match db_raises env with
  | Some e => raise e
  | None =>
      modify (fun w =>
        set_insurance_leads (insert_on_conflict lead (insurance_leads w)) w);;
      logger DEBUG ("Stored lead " ++ lead_id lead ++ " in database")
  end.

Definition s3_key (lead : InsuranceLead) : string :=
  "leads/" ++ source lead ++ "/" ++ str_prefix 10 (created_at lead)
    ++ "/" ++ lead_id lead ++ ".json".

(** [_archive_to_s3]: a failure of [put_object] is logged and swallowed. *)
Definition _archive_to_s3 (env : RecordEnv) (lead : InsuranceLead) : M unit :=
  entered (Call_archive_to_s3 lead);;
  let key := s3_key lead in
  try_except
    (match s3_raises env with
     | Some e => raise e
     | None =>
         modify (fun w => set_bucket (<[key := lead]> (bucket w)) w);;
         logger DEBUG ("Archived lead " ++ lead_id lead ++ " to S3")
     end)
    (fun e =>
       logger WARNING
         ("S3 archiving failed for " ++ lead_id lead ++ ": " ++ str_of_exn e)).

(** The body of the [for] loop of [process_leads]; the value is the new
    [processed_count]. *)
Definition loop_body (self : t) (env : RecordEnv) (lead : InsuranceLead)
    (processed_count : nat) : M nat :=
  try_except
    (if negb (consent_given lead) || negb (tcpa_compliant lead)
     then
       logger WARNING
         ("Skipping lead " ++ lead_id lead ++ ": missing consent");;
       AuditLogger.log_event environ env "lead_rejected" (lead_id lead)
         [("reason", JStr "missing_consent")];;
       ret processed_count
     else
       entered (Call_encrypt_lead lead);;
       let encrypted_lead := _encrypt_lead self env lead in
       _store_lead env encrypted_lead;;
       _archive_to_s3 env encrypted_lead;;
       AuditLogger.log_event environ env "lead_imported" (lead_id lead)
         [("source", JStr (source lead));
          ("coverage_type", json_of_opt (coverage_type lead));
          ("encrypted", JBool true)];;
       ret (processed_count + 1))
    (fun e =>
       logger ERROR
         ("Failed to process lead " ++ lead_id lead ++ ": " ++ str_of_exn e);;
       AuditLogger.log_event environ env "lead_import_failed" (lead_id lead)
         [("error", JStr (str_of_exn e))];;
       ret processed_count).

(** The [for] loop; [envs i] is what the outside answers to the record at
    position [i] of the batch. *)
Fixpoint for_lead_in (self : t) (envs : nat -> RecordEnv) (i : nat)
    (leads : list InsuranceLead) (processed_count : nat) : M nat :=
  match leads with
  | [] => ret processed_count
  | lead :: rest =>
      processed_count <- loop_body self (envs i) lead processed_count;;
      for_lead_in self envs (S i) rest processed_count
  end.

Definition process_leads (self : t) (envs : nat -> RecordEnv)
    (leads : list InsuranceLead) : M nat :=
  logger INFO ("Processing " ++ pretty (length leads) ++ " leads");;
  processed_count <- for_lead_in self envs 0 leads 0;;
  logger INFO
    ("Successfully processed " ++ pretty processed_count ++ "/"
       ++ pretty (length leads) ++ " leads");;
  ret processed_count.

(** The module constant
    [ENCRYPTION_KEY = os.getenv('HIPAA_ENCRYPTION_KEY', Fernet.generate_key())];
    [r] is what [generate_key] draws. *)
Definition ENCRYPTION_KEY (r : entropy) : string + list byte :=
  match environ !! "HIPAA_ENCRYPTION_KEY" with
  | Some s => inl s
  | None => inr (Fernet_generate_key r)
  end.

(** [LeadImporter.__init__] *)
Definition init (r : entropy) : M t :=
  match HIPAACompliantEncryption.init (ENCRYPTION_KEY r) with
  | Raise e => raise e
  | Ok enc =>
      logger INFO "Initialized HIPAA encryption";;
      logger INFO "Audit logging to /tmp/insurance_lead_audit.jsonl";;
      logger INFO "Initialized LeadImporter";;
      ret (mk enc)
  end.

(** [main] once the source adapter has returned [leads]; the value is the
    count that [process_leads] returned, if it was called. *)
Definition main (r : entropy) (envs : nat -> RecordEnv)
    (leads : list InsuranceLead) : M (option nat) :=
  importer <- init r;;
  match leads with
  | _ :: _ =>
      count <- process_leads importer envs leads;;
      logger INFO ("Import complete: " ++ pretty count ++ " leads processed");;
      ret (Some count)
  | [] =>
      logger WARNING "No leads imported";;
      ret None
  end.
End WithFernet.
End LeadImporter.

(** ** The class statement of [InsuranceLead] *)

(** What the [@dataclass] keeps of the two defaults written as
    [datetime.now(timezone.utc).isoformat()]: the values the expressions had
    when the class body was executed. *)
Record InsuranceLead_class : Type := mkInsuranceLead_class {
  default_created_at : string;
  default_imported_at : string
}.

(** Executing the class body at module load: [utcnow_iso t] is the ISO
    string of the clock at instant [t]; the two defaults are evaluated one
    after the other. *)
Definition class_InsuranceLead (utcnow_iso : nat -> string) (load_time : nat)
  : InsuranceLead_class :=
  mkInsuranceLead_class (utcnow_iso load_time) (utcnow_iso (S load_time)).

(** The generated [__init__]: an omitted keyword ([None] below, for the
    timestamps and the flags) takes the stored default.  [call_time] is the
    instant of the call; the generated code does not read the clock. *)
Definition InsuranceLead_init (cls : InsuranceLead_class) (call_time : nat)
    (lead_id source first_name last_name email phone : string)
    (date_of_birth zip_code state coverage_type household_income
       health_conditions : option string)
    (current_coverage : option bool)
    (preferred_contact_time notes : option string)
    (created_at imported_at : option string)
    (consent_given tcpa_compliant : option bool) : InsuranceLead :=
  mkInsuranceLead lead_id source first_name last_name email phone
    date_of_birth zip_code state coverage_type household_income
    health_conditions current_coverage preferred_contact_time notes
    (default (default_created_at cls) created_at)
    (default (default_imported_at cls) imported_at)
    (default false consent_given)
    (default false tcpa_compliant).

(** ** A small instance of the Fernet interface

    It keeps the shape of a Fernet token (a version byte, what the call drew,
    the body, a tag) and is used to run the importer on concrete data and to
    show that the contract can be met.  It is not a cipher to rely on. *)

Module ToyFernet.
Definition xor_bits (a b : bool * (bool * (bool * (bool * (bool * (bool * (bool * bool)))))))
  : bool * (bool * (bool * (bool * (bool * (bool * (bool * bool)))))) :=
  let '(a0, (a1, (a2, (a3, (a4, (a5, (a6, a7))))))) := a in
  let '(b0, (b1, (b2, (b3, (b4, (b5, (b6, b7))))))) := b in
  (xorb a0 b0, (xorb a1 b1, (xorb a2 b2, (xorb a3 b3,
    (xorb a4 b4, (xorb a5 b5, (xorb a6 b6, xorb a7 b7))))))).

Definition xor_byte (k b : byte) : byte :=
  Byte.of_bits (xor_bits (Byte.to_bits k) (Byte.to_bits b)).

Definition key_length : nat := 44.

Definition new (key : list byte) : option byte :=
  match key with
  | k :: _ => if Nat.eqb (length key) key_length then Some k else None
  | [] => None
  end.

Definition generate_key (r : byte) : list byte := replicate key_length r.

Definition encrypt (k r : byte) (m : list byte) : list byte :=
  x80 :: r :: map (xor_byte k) m ++ [k].

Definition decrypt (k : byte) (token : list byte) : option (list byte) :=
  match token with
  | version :: _ :: rest =>
      if Byte.eqb version x80 && Byte.eqb (List.last rest x00) k
         && negb (Nat.eqb (length rest) 0)
      then Some (map (xor_byte k) (removelast rest))
      else None
  | _ => None
  end.

Definition api : FernetAPI :=
  Build_FernetAPI byte byte new generate_key encrypt decrypt.
End ToyFernet.

(** ** Notions used in the statements *)

#[local] Instance hipaa_field_eq_dec : EqDecision hipaa_field.
Proof. solve_decision. Defined.

(** The attributes that [setattr] on a regulated field leaves alone. *)
Definition same_unregulated (a b : InsuranceLead) : Prop :=
  lead_id a = lead_id b /\ source a = source b
  /\ first_name a = first_name b /\ last_name a = last_name b
  /\ zip_code a = zip_code b /\ state a = state b
  /\ coverage_type a = coverage_type b
  /\ current_coverage a = current_coverage b
  /\ preferred_contact_time a = preferred_contact_time b
  /\ notes a = notes b
  /\ created_at a = created_at b /\ imported_at a = imported_at b
  /\ consent_given a = consent_given b
  /\ tcpa_compliant a = tcpa_compliant b.

(** What the loop of [_encrypt_lead] does to the value of one field: the
    statement of the field protector's contract, to compare with the code. *)
Definition protected_value {F : FernetAPI} (self : LeadImporter.t)
    (env : RecordEnv) (f : hipaa_field) (v : option string) : option string :=
  match v with
  | Some s =>
      if truthy s
      then Some (HIPAACompliantEncryption.encrypt
                   (LeadImporter.encryption self) (drawn env f) s)
      else Some s
  | None => None
  end.

Section Outcomes.
Context {F : FernetAPI}.
Variables (environ : gmap string string) (self : LeadImporter.t).

(** The consent gate of the specification: both flags are set. *)
Definition admits (lead : InsuranceLead) : bool :=
  consent_given lead && tcpa_compliant lead.

(** The states in which the processing of one record ends. *)
Inductive outcome : Type :=
  | rejected
  | stored
  | failed (e : exn).

Definition outcome_of (env : RecordEnv) (lead : InsuranceLead) : outcome :=
  if admits lead
  then match db_raises env with
       | None => stored
       | Some e => failed e
       end
  else rejected.

Definition is_stored (o : outcome) : bool :=
  match o with
  | stored => true
  | _ => false
  end.

(** The line that [log_event] appends. *)
Definition audit_event (env : RecordEnv) (event_type lead_id : string)
    (details : list (string * json)) : AuditEvent :=
  mkAuditEvent (now_iso env) event_type lead_id details
    (default "system" (environ !! "USER"))
    (AuditLogger._get_ip_address env).

Definition rejected_event (env : RecordEnv) (lead : InsuranceLead) : AuditEvent :=
  audit_event env "lead_rejected" (lead_id lead)
    [("reason", JStr "missing_consent")].

Definition imported_event (env : RecordEnv) (lead : InsuranceLead) : AuditEvent :=
  audit_event env "lead_imported" (lead_id lead)
    [("source", JStr (source lead));
     ("coverage_type", json_of_opt (coverage_type lead));
     ("encrypted", JBool true)].

Definition failed_event (env : RecordEnv) (lead : InsuranceLead) (e : exn)
  : AuditEvent :=
  audit_event env "lead_import_failed" (lead_id lead)
    [("error", JStr (str_of_exn e))].

(** The audit line of a record, by its outcome. *)
Definition audit_entry (env : RecordEnv) (lead : InsuranceLead) : AuditEvent :=
  match outcome_of env lead with
  | rejected => rejected_event env lead
  | stored => imported_event env lead
  | failed e => failed_event env lead e
  end.

(** The private methods entered for a record, by its outcome. *)
Definition calls_of (env : RecordEnv) (lead : InsuranceLead) : list Call :=
  let encrypted_lead := LeadImporter._encrypt_lead self env lead in
  match outcome_of env lead with
  | rejected => []
  | stored =>
      [Call_encrypt_lead lead; Call_store_lead encrypted_lead;
       Call_archive_to_s3 encrypted_lead]
  | failed _ => [Call_encrypt_lead lead; Call_store_lead encrypted_lead]
  end.

(** [f (envs i) lead] for the records of a batch whose first record is at
    position [i]. *)
Fixpoint per_record {B : Type} (f : RecordEnv -> InsuranceLead -> B)
    (envs : nat -> RecordEnv) (i : nat) (leads : list InsuranceLead) : list B :=
  match leads with
  | [] => []
  | lead :: rest => f (envs i) lead :: per_record f envs (S i) rest
  end.

Definition count_stored (envs : nat -> RecordEnv) (i : nat)
    (leads : list InsuranceLead) : nat :=
  length (List.filter is_stored (per_record outcome_of envs i leads)).


End Outcomes.

(** A regulated value as it leaves the field protector: absent or empty as
    it was, or else the decoded Fernet token of the plaintext. *)
Definition empty_or_ciphertext {F : FernetAPI} (self : LeadImporter.t)
    (env : RecordEnv) (f : hipaa_field)
    (plain protected : option string) : Prop :=
  match plain with
  | None => protected = None
  | Some s =>
      if truthy s
      then protected =
           Some (bytes_decode
                   (Fernet_encrypt
                      (HIPAACompliantEncryption.cipher
                         (LeadImporter.encryption self))
                      (drawn env f) (str_encode s)))
      else s = EmptyString /\ protected = Some EmptyString
  end.

(** Sample data: a key, an importer over the small Fernet instance, and
    leads. *)
Definition sample_importer : @LeadImporter.t ToyFernet.api :=
  @LeadImporter.mk ToyFernet.api
    (@HIPAACompliantEncryption.mk ToyFernet.api x2a).

Definition sample_env (db s3 : option exn) : @RecordEnv ToyFernet.api :=
  @mkRecordEnv ToyFernet.api (fun _ => x07) db s3
    "2025-11-14T09:30:00+00:00" (Some "203.0.113.7").

Definition sample_lead (id : string) (consent tcpa : bool) : InsuranceLead :=
  mkInsuranceLead id "csv" "Ada" "Quinn" "ada@example.org" "555-0100"
    (Some "1980-02-29") (Some "94110") (Some "CA") (Some "aca")
    None (Some EmptyString) None None None
    "2025-11-14T09:00:00+00:00" "2025-11-14T09:00:00+00:00" consent tcpa.

Definition empty_world : World := mkWorld [] ∅ [] [] [].

(** Two rows that agree on every column other than [imported_at]. *)
Definition same_but_imported_at (a b : InsuranceLead) : Prop :=
  lead_id a = lead_id b /\ source a = source b
  /\ first_name a = first_name b /\ last_name a = last_name b
  /\ email a = email b /\ phone a = phone b
  /\ date_of_birth a = date_of_birth b
  /\ zip_code a = zip_code b /\ state a = state b
  /\ coverage_type a = coverage_type b
  /\ household_income a = household_income b
  /\ health_conditions a = health_conditions b
  /\ current_coverage a = current_coverage b
  /\ preferred_contact_time a = preferred_contact_time b
  /\ notes a = notes b
  /\ created_at a = created_at b
  /\ consent_given a = consent_given b
  /\ tcpa_compliant a = tcpa_compliant b.

(** The record is admitted and the database accepts it. *)
Definition admitted_and_stored {F : FernetAPI} (env : RecordEnv)
    (lead : InsuranceLead) : bool :=
  consent_given lead && tcpa_compliant lead
  && match db_raises env with
     | None => true
     | Some _ => false
     end.

(** The same answers of the outside, except for the one of S3. *)
Definition with_s3 {F : FernetAPI} (o : option exn) (env : RecordEnv)
  : RecordEnv :=
  @mkRecordEnv F (drawn env) (db_raises env) o (now_iso env) (ipify env).

Definition is_error (r : LogRecord) : bool :=
  match levelname r with
  | ERROR => true
  | _ => false
  end.

(** The answers of the outside in which the database refuses the record at
    position [k] only. *)
Definition db_down_at (k : nat) (i : nat) : @RecordEnv ToyFernet.api :=
  if Nat.eqb i k
  then sample_env (Some (Exception "OperationalError" "connection refused")) None
  else sample_env None None.

(** ** The source adapters and the command line

    [requests.get] with [raise_for_status] and [json] is one answer of the
    outside, [http_get url token]: the parsed body, or the exception raised on
    the way.  [import_from_csv] reads its file through pandas and is taken as
    given. *)

Inductive source_choice : Type := facebook | csv | api.

(** The namespace that [argparse] returns. *)
Record Args : Type := mkArgs {
  args_source : source_choice;
  args_date : option string;
  args_file : option string;
  args_batch_id : option string
}.

Module Script.
Section WithFernet.
Context {F : FernetAPI}.
Variable environ : gmap string string.
Variable Body : Type.
Variable http_get : string -> string -> result Body.
Variable import_from_csv : string -> M (list InsuranceLead).

(** [_parse_facebook_leads] and [_parse_api_leads]: placeholders. *)
Definition _parse_facebook_leads (fb_data : Body) : list InsuranceLead := [].

Definition _parse_api_leads (api_data : Body) : list InsuranceLead := [].

Definition import_from_facebook (date : string) : M (list InsuranceLead) :=
  logger INFO ("Importing Facebook leads for date: " ++ date);;
  let access_token := environ !! "FACEBOOK_LEADS_ACCESS_TOKEN" in
  let page_id := environ !! "FACEBOOK_LEADS_PAGE_ID" in
  if negb (truthy_opt access_token) || negb (truthy_opt page_id)
  then
    logger ERROR "Missing Facebook API credentials";;
    ret []
  else
    let url :=
      "https://graph.facebook.com/v18.0/" ++ default EmptyString page_id
        ++ "/leadgen_forms" in
    try_except
      (match http_get url (default EmptyString access_token) with
       | Raise e => raise e
       | Ok fb_data =>
           let leads := _parse_facebook_leads fb_data in
           logger INFO
             ("Imported " ++ pretty (length leads) ++ " leads from Facebook");;
           ret leads
       end)
      (fun e =>
         logger ERROR ("Facebook import failed: " ++ str_of_exn e);;
         ret []).

Definition import_from_api (batch_id : string) : M (list InsuranceLead) :=
  logger INFO ("Importing leads from API, batch: " ++ batch_id);;
  let api_key := environ !! "AGED_LEADS_API_KEY" in
  let api_url :=
    default "https://api.agedleads.com/v1" (environ !! "AGED_LEADS_API_URL") in
  if negb (truthy_opt api_key)
  then
    logger ERROR "Missing aged leads API key";;
    ret []
  else
    try_except
      (let url := api_url ++ "/batches/" ++ batch_id ++ "/leads" in
       match http_get url (default EmptyString api_key) with
       | Raise e => raise e
       | Ok api_data =>
           let leads := _parse_api_leads api_data in
           logger INFO
             ("Imported " ++ pretty (length leads) ++ " leads from API");;
           ret leads
       end)
      (fun e =>
         logger ERROR ("API import failed: " ++ str_of_exn e);;
         ret []).

(** The dispatch of [main] on [args.source]; [None] is the early [return]
    after a missing argument. *)
Definition import_leads (args : Args) : M (option (list InsuranceLead)) :=
  match args_source args with
  | facebook =>
      if negb (truthy_opt (args_date args))
      then logger ERROR "--date required for Facebook import";; ret None
      else
        leads <- import_from_facebook (default EmptyString (args_date args));;
        ret (Some leads)
  | csv =>
      if negb (truthy_opt (args_file args))
      then logger ERROR "--file required for CSV import";; ret None
      else
        leads <- import_from_csv (default EmptyString (args_file args));;
        ret (Some leads)
  | api =>
      if negb (truthy_opt (args_batch_id args))
      then logger ERROR "--batch-id required for API import";; ret None
      else
        leads <- import_from_api (default EmptyString (args_batch_id args));;
        ret (Some leads)
  end.

(** [main], from the parsed arguments on. *)
Definition main (r : entropy) (envs : nat -> RecordEnv) (args : Args)
  : M unit :=
  importer <- LeadImporter.init environ r;;
  imported <- import_leads args;;
  match imported with
  | None => ret tt
  | Some [] => logger WARNING "No leads imported"
  | Some (lead :: rest) =>
      count <- LeadImporter.process_leads environ importer envs (lead :: rest);;
      logger INFO ("Import complete: " ++ pretty count ++ " leads processed")
  end.
End WithFernet.
End Script.

(** ** Notions used in the statements about the two sinks *)

(** The world changed in its log only. *)
Definition only_logged (w w' : World) : Prop :=
  insurance_leads w' = insurance_leads w
  /\ bucket w' = bucket w
  /\ audit_file w' = audit_file w
  /\ calls w' = calls w.

(** The upserts of a list of leads, one after the other. *)
Definition upsert_all (new rows : list InsuranceLead) : list InsuranceLead :=
  fold_left (fun rows lead => insert_on_conflict lead rows) new rows.

(** The [put_object] calls of a list of objects, one after the other. *)
Definition put_all (new : list (string * InsuranceLead))
    (b : gmap string InsuranceLead) : gmap string InsuranceLead :=
  fold_left (fun b kv => <[kv.1 := kv.2]> b) new b.

Section Sinks.
Context {F : FernetAPI}.
Variable self : LeadImporter.t.

(** What a record sends to the table: its protected form when it is
    admitted and the database accepts it. *)
Definition stored_row (env : RecordEnv) (lead : InsuranceLead)
  : list InsuranceLead :=
  if admitted_and_stored env lead
  then [LeadImporter._encrypt_lead self env lead]
  else [].

(** What a record sends to the bucket: its protected form under its key,
    when it was stored and S3 accepts it. *)
Definition archived_object (env : RecordEnv) (lead : InsuranceLead)
  : list (string * InsuranceLead) :=
  if admitted_and_stored env lead
  then match s3_raises env with
       | None =>
           let encrypted_lead := LeadImporter._encrypt_lead self env lead in
           [(LeadImporter.s3_key encrypted_lead, encrypted_lead)]
       | Some _ => []
       end
  else [].
End Sinks.

(** A table that already holds the first sample lead, as stored by an
    earlier run. *)
Definition world_with_row : World :=
  mkWorld [sample_lead "LEAD-1" true true] ∅ [] [] [].

(** A lead whose five regulated values are all absent or empty. *)
Definition blank_regulated (lead : InsuranceLead) : Prop :=
  forall f : hipaa_field, truthy_opt (getattr lead f) = false.

(** ** [_generate_lead_id] *)

(** A [datetime], as [datetime.now()] returns it. *)
Record datetime : Type := mkDatetime {
  dt_year : nat;
  dt_month : nat;
  dt_day : nat;
  dt_hour : nat;
  dt_minute : nat;
  dt_second : nat;
  dt_microsecond : nat
}.

(** The ranges of the fields of a [datetime], for a year of four digits. *)
Definition four_digit_year (t : datetime) : Prop :=
  1000 <= dt_year t < 10 * 1000 /\ 1 <= dt_month t <= 12
  /\ 1 <= dt_day t <= 31
  /\ dt_hour t < 24 /\ dt_minute t < 60 /\ dt_second t < 60.

Definition digit_char (n : nat) : ascii := ascii_of_nat (48 + n).

(** The decimal digits of [n], right-aligned in [width] columns and padded
    with zeros, as [%m], [%d], [%H], [%M] and [%S] print their field. *)
Fixpoint zero_padded (width n : nat) : string :=
  match width with
  | 0 => EmptyString
  | S w => zero_padded w (n / 10) ++ String (digit_char (n mod 10)) EmptyString
  end.

(** [t.strftime('%Y%m%d%H%M%S')] *)
Definition strftime_YmdHMS (t : datetime) : string :=
  zero_padded 4 (dt_year t) ++ zero_padded 2 (dt_month t)
    ++ zero_padded 2 (dt_day t) ++ zero_padded 2 (dt_hour t)
    ++ zero_padded 2 (dt_minute t) ++ zero_padded 2 (dt_second t).

Definition hex_char (n : nat) : ascii :=
  if Nat.ltb n 10 then ascii_of_nat (48 + n) else ascii_of_nat (87 + n).

Definition hex_of_byte (b : byte) : string :=
  String (hex_char (Byte.to_nat b / 16))
    (String (hex_char (Byte.to_nat b mod 16)) EmptyString).

(** [bytes.hex()] of the four bytes of [os.urandom(4)]. *)
Definition hex4 (r : byte * byte * byte * byte) : string :=
  let '(b0, b1, b2, b3) := r in
  hex_of_byte b0 ++ hex_of_byte b1 ++ hex_of_byte b2 ++ hex_of_byte b3.

Definition _generate_lead_id (now : datetime) (urandom4 : byte * byte * byte * byte)
  : string :=
  let timestamp := strftime_YmdHMS now in
  let random_suffix := hex4 urandom4 in
  "LEAD-" ++ timestamp ++ "-" ++ random_suffix.

(** Two instants in the same second. *)
Definition same_second (t1 t2 : datetime) : Prop :=
  dt_year t1 = dt_year t2 /\ dt_month t1 = dt_month t2
  /\ dt_day t1 = dt_day t2 /\ dt_hour t1 = dt_hour t2
  /\ dt_minute t1 = dt_minute t2 /\ dt_second t1 = dt_second t2.





(** * Properties *)

(** ** Strings and bytes *)

Lemma bytes_decode_encode (s : string) : bytes_decode (str_encode s) = s.
Proof. apply string_of_list_byte_of_string. Qed.

Lemma str_encode_decode (b : list byte) : str_encode (bytes_decode b) = b.
Proof. apply list_byte_of_string_of_list_byte. Qed.

Lemma length_str_encode (s : string) : length (str_encode s) = String.length s.
Proof.
  unfold str_encode, list_byte_of_string. rewrite length_map.
  induction s as [|a s IH]; simpl; [reflexivity | now rewrite IH].
Qed.

Lemma truthy_length (s : string) : truthy s = true <-> 0 < String.length s.
Proof. destruct s; simpl; split; intros; try lia; congruence. Qed.

Lemma truthy_false (s : string) : truthy s = false <-> s = EmptyString.
Proof. destruct s; simpl; split; congruence. Qed.

(** ** The small instance meets the contract *)

Lemma xor_byte_involutive (k b : byte) :
  ToyFernet.xor_byte k (ToyFernet.xor_byte k b) = b.
Proof.
  unfold ToyFernet.xor_byte.
  rewrite Byte.to_bits_of_bits.
  rewrite <- (Byte.of_bits_to_bits b) at 2.
  f_equal.
  destruct (Byte.to_bits k) as (k0 & k1 & k2 & k3 & k4 & k5 & k6 & k7).
  destruct (Byte.to_bits b) as (b0 & b1 & b2 & b3 & b4 & b5 & b6 & b7).
  simpl.
  repeat (rewrite <- xorb_assoc, xorb_nilpotent, xorb_false_l).
  reflexivity.
Qed.

Lemma toy_contract : FernetContract ToyFernet.api.
Proof.
  split; simpl.
  - intros k r m. unfold ToyFernet.decrypt, ToyFernet.encrypt.
    rewrite List.last_last, removelast_last, length_app.
    rewrite (Byte.byte_dec_lb (eq_refl k)).
    simpl. replace (length (map (ToyFernet.xor_byte k) m) + 1 =? 0)%nat
      with false by (symmetry; apply Nat.eqb_neq; lia).
    simpl. f_equal. rewrite map_map.
    rewrite <- (map_id m) at 2. apply map_ext. intros b.
    apply xor_byte_involutive.
  - intros k r m. unfold ToyFernet.encrypt. simpl.
    rewrite length_app, length_map. simpl. lia.
  - intros k r r' m H. unfold ToyFernet.encrypt in H. congruence.
  - intros r. unfold ToyFernet.new, ToyFernet.generate_key. simpl. eauto.
Qed.

(** ** The encryptor *)

Section Encryption.
Context {F : FernetAPI}.
Implicit Types (self : HIPAACompliantEncryption.t) (r : entropy).

Lemma encrypt_empty self r :
  HIPAACompliantEncryption.encrypt self r EmptyString = EmptyString.
Proof. reflexivity. Qed.

Lemma encrypt_truthy self r (data : string) :
  truthy data = true ->
  HIPAACompliantEncryption.encrypt self r data =
  bytes_decode
    (Fernet_encrypt (HIPAACompliantEncryption.cipher self) r (str_encode data)).
Proof.
  intros H. unfold HIPAACompliantEncryption.encrypt. now rewrite H.
Qed.

Lemma encrypt_longer (HF : FernetContract F) self r (data : string) :
  truthy data = true ->
  String.length data
  < String.length (HIPAACompliantEncryption.encrypt self r data).
Proof.
  intros H. rewrite (encrypt_truthy _ _ _ H).
  rewrite <- (length_str_encode (bytes_decode _)), str_encode_decode.
  rewrite <- (length_str_encode data).
  apply Fernet_token_longer.
Qed.

Lemma encrypt_differs (HF : FernetContract F) self r (data : string) :
  truthy data = true ->
  HIPAACompliantEncryption.encrypt self r data <> data.
Proof.
  intros H E. pose proof (encrypt_longer HF self r data H) as L.
  rewrite E in L. lia.
Qed.

Lemma decrypt_encrypt (HF : FernetContract F) self r (data : string) :
  HIPAACompliantEncryption.decrypt self
    (HIPAACompliantEncryption.encrypt self r data) = Ok data.
Proof.
  destruct (truthy data) eqn:H.
  - pose proof (encrypt_longer HF self r data H) as L.
    unfold HIPAACompliantEncryption.decrypt.
    replace (truthy (HIPAACompliantEncryption.encrypt self r data)) with true
      by (symmetry; apply truthy_length; lia).
    simpl. rewrite (encrypt_truthy _ _ _ H), str_encode_decode.
    now rewrite Fernet_decrypt_encrypt, bytes_decode_encode.
  - apply truthy_false in H. subst data. reflexivity.
Qed.
End Encryption.

(** ** Attributes *)

Lemma getattr_setattr (l : InsuranceLead) (f g : hipaa_field) (v : string) :
  getattr (setattr l f v) g = if decide (f = g) then Some v else getattr l g.
Proof. destruct f, g; reflexivity. Qed.

Lemma getattr_to_dict_copy (l : InsuranceLead) (f : hipaa_field) :
  getattr (to_dict_copy l) f = getattr l f.
Proof. destruct f; reflexivity. Qed.

Lemma same_unregulated_setattr (l : InsuranceLead) (f : hipaa_field) (v : string) :
  same_unregulated (setattr l f v) l.
Proof. destruct f; repeat split. Qed.

Lemma same_unregulated_trans (a b c : InsuranceLead) :
  same_unregulated a b -> same_unregulated b c -> same_unregulated a c.
Proof. unfold same_unregulated. intuition congruence. Qed.

Section FieldProtector.
Context {F : FernetAPI}.
Variables (self : LeadImporter.t) (env : RecordEnv).

Lemma getattr_encrypt_field (l : InsuranceLead) (f g : hipaa_field) :
  getattr (LeadImporter.encrypt_field self env l f) g =
  if decide (f = g) then protected_value self env f (getattr l f)
  else getattr l g.
Proof.
  unfold LeadImporter.encrypt_field, protected_value.
  destruct (getattr l f) as [s|] eqn:E.
  - destruct (truthy s).
    + apply getattr_setattr.
    + destruct (decide (f = g)); congruence.
  - destruct (decide (f = g)); congruence.
Qed.

Lemma getattr_fold_encrypt_field (fs : list hipaa_field) (l : InsuranceLead)
    (g : hipaa_field) :
  NoDup fs ->
  getattr (fold_left (LeadImporter.encrypt_field self env) fs l) g =
  if decide (g ∈ fs) then protected_value self env g (getattr l g)
  else getattr l g.
Proof.
  intros ND. revert l.
  induction ND as [|f fs Hf ND IH]; intros l; simpl.
  - destruct (decide (g ∈ [])) as [H|H]; [inversion H | reflexivity].
  - rewrite IH, getattr_encrypt_field.
    destruct (decide (f = g)) as [->|Hne].
    + destruct (decide (g ∈ fs)); [contradiction|].
      destruct (decide (g ∈ g :: fs)) as [|H]; [reflexivity|].
      exfalso. apply H. constructor.
    + destruct (decide (g ∈ fs)) as [Hin|Hin];
        destruct (decide (g ∈ f :: fs)) as [Hin'|Hin']; try reflexivity.
      * exfalso. apply Hin'. now constructor.
      * exfalso. inversion Hin'; subst; congruence.
Qed.

Lemma getattr_encrypt_lead (lead : InsuranceLead) (f : hipaa_field) :
  getattr (LeadImporter._encrypt_lead self env lead) f =
  protected_value self env f (getattr lead f).
Proof.
  unfold LeadImporter._encrypt_lead.
  rewrite getattr_fold_encrypt_field.
  - rewrite getattr_to_dict_copy.
    destruct (decide (f ∈ get_hipaa_fields lead)) as [|H]; [reflexivity|].
    exfalso. apply H. unfold get_hipaa_fields.
    destruct f; repeat (first [apply list_elem_of_here | apply list_elem_of_further]).
  - unfold get_hipaa_fields. now apply (bool_decide_unpack _).
Qed.

Lemma same_unregulated_encrypt_lead (lead : InsuranceLead) :
  same_unregulated (LeadImporter._encrypt_lead self env lead) lead.
Proof.
  unfold LeadImporter._encrypt_lead.
  assert (H : same_unregulated (to_dict_copy lead) lead) by (repeat split).
  revert H. generalize (to_dict_copy lead). generalize (get_hipaa_fields lead).
  intros fs. induction fs as [|f fs IH]; intros l H; simpl; [exact H|].
  apply IH. eapply same_unregulated_trans; [|exact H].
  unfold LeadImporter.encrypt_field.
  destruct (getattr l f) as [s|]; [destruct (truthy s)|].
  - apply same_unregulated_setattr.
  - repeat split.
  - repeat split.
Qed.
End FieldProtector.

(** ** One pass of the loop *)

Section LoopBody.
Context {F : FernetAPI}.
Variables (environ : gmap string string) (self : LeadImporter.t).

Lemma consent_check (lead : InsuranceLead) :
  negb (consent_given lead) || negb (tcpa_compliant lead) = negb (admits lead).
Proof.
  unfold admits. now destruct (consent_given lead), (tcpa_compliant lead).
Qed.

Lemma loop_body_rejected env lead n w :
  admits lead = false ->
  LeadImporter.loop_body environ self env lead n w =
  (Ok n,
   mkWorld (insurance_leads w) (bucket w)
     (audit_file w ++ [rejected_event environ env lead])
     (log w ++
        [mkLogRecord WARNING
           ("Skipping lead " ++ lead_id lead ++ ": missing consent");
         mkLogRecord INFO
           ("Audit: lead_rejected for lead " ++ lead_id lead)])
     (calls w)).
Proof.
  intros H. unfold LeadImporter.loop_body.
  rewrite consent_check, H.
  destruct w. cbn. rewrite <- app_assoc. reflexivity.
Qed.

Lemma loop_body_failed env lead n w e :
  admits lead = true ->
  db_raises env = Some e ->
  LeadImporter.loop_body environ self env lead n w =
  (Ok n,
   mkWorld (insurance_leads w) (bucket w)
     (audit_file w ++ [failed_event environ env lead e])
     (log w ++
        [mkLogRecord ERROR
           ("Failed to process lead " ++ lead_id lead ++ ": " ++ str_of_exn e);
         mkLogRecord INFO
           ("Audit: lead_import_failed for lead " ++ lead_id lead)])
     (calls w ++
        [Call_encrypt_lead lead;
         Call_store_lead (LeadImporter._encrypt_lead self env lead)])).
Proof.
  intros H E. unfold LeadImporter.loop_body, LeadImporter._store_lead.
  rewrite consent_check, H, E.
  destruct w. cbn. rewrite <- !app_assoc. reflexivity.
Qed.

Lemma loop_body_stored env lead n w :
  admits lead = true ->
  db_raises env = None ->
  let encrypted_lead := LeadImporter._encrypt_lead self env lead in
  LeadImporter.loop_body environ self env lead n w =
  (Ok (n + 1),
   mkWorld
     (insert_on_conflict encrypted_lead (insurance_leads w))
     (match s3_raises env with
      | None => <[LeadImporter.s3_key encrypted_lead := encrypted_lead]> (bucket w)
      | Some _ => bucket w
      end)
     (audit_file w ++ [imported_event environ env lead])
     (log w ++
        match s3_raises env with
        | None => []
        | Some e =>
            [mkLogRecord WARNING
               ("S3 archiving failed for " ++ lead_id encrypted_lead ++ ": "
                  ++ str_of_exn e)]
        end ++
        [mkLogRecord INFO ("Audit: lead_imported for lead " ++ lead_id lead)])
     (calls w ++
        [Call_encrypt_lead lead; Call_store_lead encrypted_lead;
         Call_archive_to_s3 encrypted_lead])).
Proof.
  intros H E. unfold LeadImporter.loop_body, LeadImporter._store_lead,
    LeadImporter._archive_to_s3.
  rewrite consent_check, H, E.
  destruct w, (s3_raises env); cbn; rewrite <- ?app_assoc; reflexivity.
Qed.

(** What every pass does, whatever the outcome. *)
Lemma loop_body_run env lead n w :
  exists w',
    LeadImporter.loop_body environ self env lead n w
    = (Ok (n + (if is_stored (outcome_of env lead) then 1 else 0)), w')
    /\ audit_file w' = (audit_file w ++ [audit_entry environ env lead])%list
    /\ calls w' = (calls w ++ calls_of self env lead)%list.
Proof.
  unfold audit_entry, calls_of, outcome_of.
  destruct (admits lead) eqn:H.
  - destruct (db_raises env) as [e|] eqn:E.
    + rewrite (loop_body_failed _ _ _ _ e H E). eexists. simpl.
      rewrite Nat.add_0_r. eauto.
    + rewrite (loop_body_stored _ _ _ _ H E). eexists. simpl. eauto.
  - rewrite (loop_body_rejected _ _ _ _ H). eexists. simpl.
    rewrite Nat.add_0_r, app_nil_r. eauto.
Qed.
End LoopBody.

(** ** The whole batch *)

Section Batch.
Context {F : FernetAPI}.
Variables (environ : gmap string string) (self : LeadImporter.t).
Variable envs : nat -> RecordEnv.

Lemma for_lead_in_run (leads : list InsuranceLead) :
  forall (i n : nat) (w : World),
  exists w',
    LeadImporter.for_lead_in environ self envs i leads n w
    = (Ok (n + count_stored envs i leads), w')
    /\ audit_file w'
       = (audit_file w ++ per_record (audit_entry environ) envs i leads)%list
    /\ calls w'
       = (calls w ++ concat (per_record (calls_of self) envs i leads))%list.
Proof.
  induction leads as [|lead rest IH]; intros i n w; simpl.
  - exists w. unfold ret, count_stored. simpl.
    now rewrite Nat.add_0_r, !app_nil_r.
  - destruct (loop_body_run environ self (envs i) lead n w)
      as (w1 & E1 & A1 & C1).
    destruct (IH (S i) (n + (if is_stored (outcome_of (envs i) lead)
                              then 1 else 0)) w1) as (w2 & E2 & A2 & C2).
    exists w2. unfold bind. rewrite E1, E2. split; [|split].
    + f_equal. f_equal. unfold count_stored. simpl.
      destruct (is_stored (outcome_of (envs i) lead)); simpl; lia.
    + rewrite A2, A1, <- app_assoc. reflexivity.
    + rewrite C2, C1, <- app_assoc. reflexivity.
Qed.

Lemma process_leads_run (leads : list InsuranceLead) (w : World) :
  exists w',
    LeadImporter.process_leads environ self envs leads w
    = (Ok (count_stored envs 0 leads), w')
    /\ audit_file w'
       = (audit_file w ++ per_record (audit_entry environ) envs 0 leads)%list
    /\ calls w'
       = (calls w ++ concat (per_record (calls_of self) envs 0 leads))%list
    /\ List.last (log w') (mkLogRecord DEBUG EmptyString)
       = mkLogRecord INFO
           ("Successfully processed " ++ pretty (count_stored envs 0 leads)
              ++ "/" ++ pretty (length leads) ++ " leads").
Proof.
  unfold LeadImporter.process_leads.
  set (w0 := set_log
               (log w ++ [mkLogRecord INFO
                  ("Processing " ++ pretty (length leads) ++ " leads")]) w).
  destruct (for_lead_in_run leads 0 0 w0) as (w1 & E & A & C).
  eexists. unfold bind, logger, modify. simpl. fold w0. rewrite E. simpl.
  repeat split.
  - simpl. rewrite A. reflexivity.
  - simpl. rewrite C. reflexivity.
  - simpl. apply List.last_last.
Qed.



End Batch.

(** ** Which records reach which method *)

Section Calls.
Context {F : FernetAPI}.
Variables (environ : gmap string string) (self : LeadImporter.t).

Lemma elem_of_calls_of (env : RecordEnv) (lead : InsuranceLead) (c : Call) :
  c ∈ calls_of self env lead ->
  admits lead = true
  /\ (c = Call_encrypt_lead lead
      \/ c = Call_store_lead (LeadImporter._encrypt_lead self env lead)
      \/ c = Call_archive_to_s3 (LeadImporter._encrypt_lead self env lead)).
Proof.
  unfold calls_of, outcome_of.
  destruct (admits lead); [|intros H; inversion H].
  destruct (db_raises env); intros H; split; try reflexivity;
    repeat (apply elem_of_cons in H as [->|H]; [tauto|]); inversion H.
Qed.

Lemma elem_of_concat_per_record {B : Type}
    (f : RecordEnv -> InsuranceLead -> list B) (envs : nat -> RecordEnv)
    (leads : list InsuranceLead) (i : nat) (b : B) :
  b ∈ concat (per_record f envs i leads) ->
  exists (k : nat) (lead : InsuranceLead),
    leads !! k = Some lead /\ b ∈ f (envs (i + k)) lead.
Proof.
  revert i. induction leads as [|l rest IH]; intros i; simpl.
  - intros H. inversion H.
  - intros H. apply elem_of_app in H as [H|H].
    + exists 0, l. rewrite Nat.add_0_r. auto.
    + destruct (IH _ H) as (k & lead & Hk & Hb).
      exists (S k), lead. rewrite Nat.add_succ_r. auto.
Qed.
End Calls.

Lemma empty_or_ciphertext_encrypt_lead {F : FernetAPI} (self : LeadImporter.t)
    (env : RecordEnv) (lead : InsuranceLead) (f : hipaa_field) :
  empty_or_ciphertext self env f (getattr lead f)
    (getattr (LeadImporter._encrypt_lead self env lead) f).
Proof.
  rewrite getattr_encrypt_lead. unfold empty_or_ciphertext, protected_value.
  destruct (getattr lead f) as [s|]; [|reflexivity].
  destruct (truthy s) eqn:H.
  - now rewrite (encrypt_truthy _ _ _ H).
  - apply truthy_false in H. now subst s.
Qed.

(** C2. Every record that [process_leads] passes to [_store_lead] or to
    [_archive_to_s3] is the value [_encrypt_lead] made from an admitted record
    of the batch, and in it each of the five regulated fields is either absent
    or empty exactly as it was in the input (it is not encrypted), or it is
    the Fernet token of the input's value. *)
Theorem regulated_fields_empty_or_ciphertext {F : FernetAPI}
    (environ : gmap string string) (self : LeadImporter.t)
    (envs : nat -> RecordEnv) (leads : list InsuranceLead) (w : World) :
  exists (n : nat) (w' : World) (new : list Call),
    LeadImporter.process_leads environ self envs leads w = (Ok n, w')
    /\ calls w' = (calls w ++ new)%list
    /\ forall protected : InsuranceLead,
         Call_store_lead protected ∈ new \/ Call_archive_to_s3 protected ∈ new ->
         exists (i : nat) (lead : InsuranceLead),
           leads !! i = Some lead
           /\ admits lead = true
           /\ protected = LeadImporter._encrypt_lead self (envs i) lead
           /\ forall f : hipaa_field,
                empty_or_ciphertext self (envs i) f
                  (getattr lead f) (getattr protected f).
Proof.
  destruct (process_leads_run environ self envs leads w) as (w' & E & _ & C & _).
  exists (count_stored envs 0 leads), w',
    (concat (per_record (calls_of self) envs 0 leads)).
  split; [exact E|]. split; [exact C|].
  intros protected H.
  assert (exists c, c ∈ concat (per_record (calls_of self) envs 0 leads)
                    /\ (c = Call_store_lead protected
                        \/ c = Call_archive_to_s3 protected))
    as (c & Hc & Hshape) by (destruct H; eauto).
  apply elem_of_concat_per_record in Hc as (k & lead & Hk & Hc).
  apply elem_of_calls_of in Hc as (Hadm & Hc). simpl in Hc.
  exists k, lead. split; [exact Hk|]. split; [exact Hadm|].
  assert (protected = LeadImporter._encrypt_lead self (envs k) lead) as ->.
  { destruct Hshape as [->| ->], Hc as [Hc|[Hc|Hc]]; congruence. }
  split; [reflexivity|]. intros f. apply empty_or_ciphertext_encrypt_lead.
Qed.



(** C5, as stated, does not hold: [Fernet.encrypt] draws the current time and
    a fresh IV at every call and writes both into the token, so two calls of
    [encrypt] on the same plaintext under the same key give different
    ciphertexts as soon as the draws differ. *)
Lemma encrypt_two_calls_differ :
  exists (r1 r2 : @entropy ToyFernet.api) (x : string),
    HIPAACompliantEncryption.encrypt
      (LeadImporter.encryption sample_importer) r1 x
    <> HIPAACompliantEncryption.encrypt
         (LeadImporter.encryption sample_importer) r2 x.
Proof.
  exists x01, x02, "ada@example.org". vm_compute. discriminate.
Qed.

(** C5, amended. With a Fernet that meets its contract, two calls of
    [encrypt] on the same plaintext under the same key give the same
    ciphertext exactly when the plaintext is empty (the result is the empty
    string, without a call of Fernet) or the two calls draw the same time and
    IV. *)
Theorem encrypt_deterministic_up_to_draw {F : FernetAPI} (HF : FernetContract F)
    (self : HIPAACompliantEncryption.t) (r1 r2 : entropy) (x : string) :
  HIPAACompliantEncryption.encrypt self r1 x
  = HIPAACompliantEncryption.encrypt self r2 x
  <-> x = EmptyString \/ r1 = r2.
Proof.
  split.
  - intros E. destruct (truthy x) eqn:Ht.
    + right. rewrite !(encrypt_truthy _ _ _ Ht) in E.
      apply (f_equal str_encode) in E. rewrite !str_encode_decode in E.
      eapply Fernet_token_entropy. exact E.
    + left. now apply truthy_false.
  - intros [-> | ->]; reflexivity.
Qed.

Lemma encrypt_deterministic_up_to_draw_witness :
  HIPAACompliantEncryption.encrypt
    (LeadImporter.encryption sample_importer) x01 "ada@example.org"
  = HIPAACompliantEncryption.encrypt
      (LeadImporter.encryption sample_importer) x02 "ada@example.org"
  <-> "ada@example.org" = EmptyString \/ x01 = x02.
Proof.
  exact (encrypt_deterministic_up_to_draw toy_contract
           (LeadImporter.encryption sample_importer) x01 x02
           "ada@example.org").
Defined.

(** ** The consent gate *)

Section Gate.
Context {F : FernetAPI}.
Variables (environ : gmap string string) (self : LeadImporter.t).

Lemma admits_spec (lead : InsuranceLead) :
  admits lead = true <-> consent_given lead = true /\ tcpa_compliant lead = true.
Proof. unfold admits. apply andb_true_iff. Qed.


Lemma concat_per_record_elem_of {B : Type}
    (f : RecordEnv -> InsuranceLead -> list B) (envs : nat -> RecordEnv)
    (leads : list InsuranceLead) (i k : nat) (lead : InsuranceLead) (b : B) :
  leads !! k = Some lead ->
  b ∈ f (envs (i + k)) lead ->
  b ∈ concat (per_record f envs i leads).
Proof.
  revert i k. induction leads as [|l rest IH]; intros i k Hk Hb.
  - inversion Hk.
  - simpl. apply elem_of_app. destruct k as [|k]; simpl in Hk.
    + left. injection Hk as ->. now rewrite Nat.add_0_r in Hb.
    + right. apply (IH (S i) k); [exact Hk|]. now rewrite Nat.add_succ_r in Hb.
Qed.



End Gate.


(** ** The upsert *)

Lemma has_key_spec (k : string) (row : InsuranceLead) :
  has_key k row = true <-> lead_id row = k.
Proof. unfold has_key. apply String.eqb_eq. Qed.

Lemma has_key_set_imported_at (k v : string) (row : InsuranceLead) :
  has_key k (set_imported_at v row) = has_key k row.
Proof. reflexivity. Qed.

Lemma existsb_has_key (k : string) (rows : list InsuranceLead) :
  existsb (has_key k) rows = true <-> k ∈ map lead_id rows.
Proof.
  rewrite existsb_exists, list_elem_of_In, in_map_iff.
  split; intros (row & H1 & H2); exists row.
  - apply has_key_spec in H2. auto.
  - split; [exact H2|]. now apply has_key_spec.
Qed.

Lemma select_by_id_absent (k : string) (rows : list InsuranceLead) :
  k ∉ map lead_id rows -> select_by_id k rows = [].
Proof.
  induction rows as [|r rows IH]; intros H; [reflexivity|].
  unfold select_by_id in *. simpl.
  destruct (has_key k r) eqn:E.
  - exfalso. apply H. apply has_key_spec in E. subst k. simpl. constructor.
  - apply IH. intros Hin. apply H. simpl. now constructor.
Qed.

Lemma select_by_id_unique (rows : list InsuranceLead) (row : InsuranceLead) :
  primary_key rows -> row ∈ rows -> select_by_id (lead_id row) rows = [row].
Proof.
  unfold primary_key.
  induction rows as [|r rows IH]; intros ND Hin; [inversion Hin|].
  simpl in ND. apply NoDup_cons in ND as (Hr & ND).
  unfold select_by_id in *. simpl.
  apply elem_of_cons in Hin as [->|Hin].
  - replace (has_key (lead_id r) r) with true
      by (symmetry; now apply has_key_spec).
    f_equal. now apply select_by_id_absent.
  - destruct (has_key (lead_id row) r) eqn:E.
    + exfalso. apply Hr. apply has_key_spec in E. rewrite E.
      apply list_elem_of_fmap. eauto.
    + now apply IH.
Qed.

Lemma update_keeps_ids (lead : InsuranceLead) (rows : list InsuranceLead) :
  map lead_id
    (map (fun row =>
            if has_key (lead_id lead) row
            then set_imported_at (imported_at lead) row else row) rows)
  = map lead_id rows.
Proof.
  rewrite map_map. apply map_ext. intros row.
  now destruct (has_key (lead_id lead) row).
Qed.

Lemma select_by_id_update (lead : InsuranceLead) (k : string)
    (rows : list InsuranceLead) :
  select_by_id k
    (map (fun row =>
            if has_key (lead_id lead) row
            then set_imported_at (imported_at lead) row else row) rows)
  = if String.eqb (lead_id lead) k
    then map (set_imported_at (imported_at lead)) (select_by_id k rows)
    else select_by_id k rows.
Proof.
  unfold select_by_id.
  induction rows as [|r rows IH]; simpl.
  - now destruct (String.eqb (lead_id lead) k).
  - destruct (String.eqb (lead_id lead) k) eqn:Ek.
    + apply String.eqb_eq in Ek. subst k.
      destruct (has_key (lead_id lead) r) eqn:E.
      * rewrite has_key_set_imported_at, E. simpl. now rewrite IH.
      * rewrite E. exact IH.
    + destruct (has_key (lead_id lead) r) eqn:E.
      * rewrite has_key_set_imported_at.
        apply has_key_spec in E. apply String.eqb_neq in Ek.
        replace (has_key k r) with false; [exact IH|].
        symmetry. unfold has_key. apply String.eqb_neq. congruence.
      * destruct (has_key k r); [now rewrite IH | exact IH].
Qed.

Lemma insert_on_conflict_existing (lead : InsuranceLead)
    (rows : list InsuranceLead) :
  lead_id lead ∈ map lead_id rows ->
  insert_on_conflict lead rows
  = map (fun row =>
           if has_key (lead_id lead) row
           then set_imported_at (imported_at lead) row else row) rows.
Proof.
  intros H. unfold insert_on_conflict.
  now replace (existsb (has_key (lead_id lead)) rows) with true
    by (symmetry; now apply existsb_has_key).
Qed.

Lemma insert_on_conflict_fresh (lead : InsuranceLead)
    (rows : list InsuranceLead) :
  lead_id lead ∉ map lead_id rows ->
  insert_on_conflict lead rows = (rows ++ [lead])%list.
Proof.
  intros H. unfold insert_on_conflict.
  destruct (existsb (has_key (lead_id lead)) rows) eqn:E; [|reflexivity].
  apply existsb_has_key in E. contradiction.
Qed.

Lemma insert_on_conflict_primary_key (lead : InsuranceLead)
    (rows : list InsuranceLead) :
  primary_key rows -> primary_key (insert_on_conflict lead rows).
Proof.
  unfold primary_key. intros ND.
  destruct (decide (lead_id lead ∈ map lead_id rows)) as [H|H].
  - rewrite (insert_on_conflict_existing _ _ H). now rewrite update_keeps_ids.
  - rewrite (insert_on_conflict_fresh _ _ H), map_app. simpl.
    apply NoDup_app. split; [exact ND|]. split.
    + intros x Hx Hx'. apply list_elem_of_singleton in Hx'. now subst x.
    + apply NoDup_singleton.
Qed.

Lemma store_lead_ok {F : FernetAPI} (env : RecordEnv) (lead : InsuranceLead)
    (w : World) :
  db_raises env = None ->
  LeadImporter._store_lead env lead w
  = (Ok tt,
     mkWorld (insert_on_conflict lead (insurance_leads w)) (bucket w)
       (audit_file w) (log w) (calls w ++ [Call_store_lead lead])).
Proof.
  intros E. unfold LeadImporter._store_lead. rewrite E.
  destruct w. reflexivity.
Qed.

Lemma store_lead_raises {F : FernetAPI} (env : RecordEnv) (lead : InsuranceLead)
    (w : World) (e : exn) :
  db_raises env = Some e ->
  LeadImporter._store_lead env lead w
  = (Raise e,
     mkWorld (insurance_leads w) (bucket w) (audit_file w) (log w)
       (calls w ++ [Call_store_lead lead])).
Proof.
  intros E. unfold LeadImporter._store_lead. rewrite E.
  destruct w. reflexivity.
Qed.

(** C6. When the table already holds a row with the lead's [lead_id], a
    successful [_store_lead] leaves exactly one row with that [lead_id]: the
    old row with [imported_at] set to the new lead's value and every other
    column as it was.  The number of rows and the rows of all other keys are
    unchanged, and the key stays unique. *)
Theorem upsert_refreshes_only_imported_at {F : FernetAPI} (env : RecordEnv)
    (lead row : InsuranceLead) (w : World) :
  primary_key (insurance_leads w) ->
  db_raises env = None ->
  row ∈ insurance_leads w ->
  lead_id row = lead_id lead ->
  exists (w' : World) (row' : InsuranceLead),
    LeadImporter._store_lead env lead w = (Ok tt, w')
    /\ select_by_id (lead_id lead) (insurance_leads w') = [row']
    /\ imported_at row' = imported_at lead
    /\ same_but_imported_at row' row
    /\ length (insurance_leads w') = length (insurance_leads w)
    /\ (forall k : string,
          k <> lead_id lead ->
          select_by_id k (insurance_leads w')
          = select_by_id k (insurance_leads w))
    /\ primary_key (insurance_leads w').
Proof.
  intros PK E Hin Hid.
  assert (lead_id lead ∈ map lead_id (insurance_leads w)) as Hex.
  { rewrite <- Hid. apply list_elem_of_fmap. eauto. }
  eexists. exists (set_imported_at (imported_at lead) row).
  split; [apply (store_lead_ok _ _ _ E)|]. simpl.
  rewrite (insert_on_conflict_existing _ _ Hex).
  split; [|split; [|split; [|split; [|split]]]].
  - rewrite select_by_id_update, String.eqb_refl, <- Hid.
    now rewrite (select_by_id_unique _ _ PK Hin).
  - reflexivity.
  - repeat split.
  - apply length_map.
  - intros k Hk. rewrite select_by_id_update.
    replace (String.eqb (lead_id lead) k) with false; [reflexivity|].
    symmetry. apply String.eqb_neq. congruence.
  - unfold primary_key. now rewrite update_keeps_ids.
Qed.

Lemma upsert_refreshes_only_imported_at_witness :
  exists (w' : World) (row' : InsuranceLead),
    LeadImporter._store_lead (sample_env None None)
      (set_imported_at "2025-11-15T10:00:00+00:00" (sample_lead "LEAD-1" true true))
      (mkWorld [sample_lead "LEAD-1" true true] ∅ [] [] []) = (Ok tt, w')
    /\ select_by_id "LEAD-1" (insurance_leads w') = [row']
    /\ imported_at row' = "2025-11-15T10:00:00+00:00"
    /\ same_but_imported_at row' (sample_lead "LEAD-1" true true)
    /\ length (insurance_leads w') = 1
    /\ (forall k : string,
          k <> "LEAD-1" ->
          select_by_id k (insurance_leads w')
          = select_by_id k [sample_lead "LEAD-1" true true])
    /\ primary_key (insurance_leads w').
Proof.
  apply (upsert_refreshes_only_imported_at (sample_env None None)
           (set_imported_at "2025-11-15T10:00:00+00:00"
              (sample_lead "LEAD-1" true true))
           (sample_lead "LEAD-1" true true)
           (mkWorld [sample_lead "LEAD-1" true true] ∅ [] [] [])).
  - unfold primary_key. simpl. apply NoDup_singleton.
  - reflexivity.
  - simpl. apply list_elem_of_here.
  - reflexivity.
Defined.

(** Storing two leads with the same [lead_id], one after the other, into a
    table that has no such row: one row, the first lead with the second
    lead's [imported_at]. *)
Lemma store_twice_one_row {F : FernetAPI} (env1 env2 : RecordEnv)
    (lead1 lead2 : InsuranceLead) (w : World) :
  primary_key (insurance_leads w) ->
  lead_id lead1 ∉ map lead_id (insurance_leads w) ->
  lead_id lead2 = lead_id lead1 ->
  db_raises env1 = None -> db_raises env2 = None ->
  exists w1 w2 : World,
    LeadImporter._store_lead env1 lead1 w = (Ok tt, w1)
    /\ LeadImporter._store_lead env2 lead2 w1 = (Ok tt, w2)
    /\ select_by_id (lead_id lead1) (insurance_leads w2)
       = [set_imported_at (imported_at lead2) lead1]
    /\ length (insurance_leads w2) = S (length (insurance_leads w)).
Proof.
  intros PK Hfresh Hid E1 E2.
  eexists. eexists.
  split; [apply (store_lead_ok _ _ _ E1)|].
  split; [apply (store_lead_ok _ _ _ E2)|]. simpl.
  rewrite (insert_on_conflict_fresh _ _ Hfresh).
  assert (primary_key (insurance_leads w ++ [lead1])) as PK1.
  { rewrite <- (insert_on_conflict_fresh _ _ Hfresh).
    now apply insert_on_conflict_primary_key. }
  assert (lead_id lead2 ∈ map lead_id (insurance_leads w ++ [lead1])) as Hex.
  { rewrite Hid, map_app. apply elem_of_app. right. simpl. constructor. }
  rewrite (insert_on_conflict_existing _ _ Hex). split.
  - rewrite select_by_id_update, Hid, String.eqb_refl.
    rewrite (select_by_id_unique _ lead1 PK1); [reflexivity|].
    apply elem_of_app. right. constructor.
  - rewrite length_map, length_app. simpl. lia.
Qed.

(** ** Counting *)

Section Counting.
Context {F : FernetAPI}.
Variables (environ : gmap string string) (envs : nat -> RecordEnv).


Lemma is_stored_outcome_of (env : RecordEnv) (lead : InsuranceLead) :
  is_stored (outcome_of env lead) = admitted_and_stored env lead.
Proof.
  unfold outcome_of, admitted_and_stored, admits.
  destruct (consent_given lead), (tcpa_compliant lead), (db_raises env);
    reflexivity.
Qed.


End Counting.



(** C8. For an admitted record that the database accepts, the answer of S3
    does not change the outcome: whether [put_object] raises or not, the
    record is counted, the same row is written, the same [lead_imported] line
    is appended.  A failing archive adds one WARNING record to the log (and
    no ERROR record), and leaves the bucket as it was. *)
Theorem archive_failure_keeps_record_stored {F : FernetAPI}
    (environ : gmap string string) (self : LeadImporter.t)
    (env : RecordEnv) (lead : InsuranceLead) (n : nat) (w : World) (e : exn) :
  consent_given lead = true ->
  tcpa_compliant lead = true ->
  db_raises env = None ->
  exists w_fail w_ok : World,
    LeadImporter.loop_body environ self (with_s3 (Some e) env) lead n w
    = (Ok (n + 1), w_fail)
    /\ LeadImporter.loop_body environ self (with_s3 None env) lead n w
       = (Ok (n + 1), w_ok)
    /\ audit_file w_fail
       = (audit_file w
            ++ [mkAuditEvent (now_iso env) "lead_imported" (lead_id lead)
                  [("source", JStr (source lead));
                   ("coverage_type", json_of_opt (coverage_type lead));
                   ("encrypted", JBool true)]
                  (default "system" (environ !! "USER"))
                  (AuditLogger._get_ip_address env)])%list
    /\ audit_file w_ok = audit_file w_fail
    /\ insurance_leads w_ok = insurance_leads w_fail
    /\ insurance_leads w_fail
       = insert_on_conflict (LeadImporter._encrypt_lead self env lead)
           (insurance_leads w)
    /\ bucket w_fail = bucket w
    /\ log w_fail
       = (log w
            ++ [mkLogRecord WARNING
                  ("S3 archiving failed for " ++ lead_id lead ++ ": "
                     ++ str_of_exn e);
                mkLogRecord INFO
                  ("Audit: lead_imported for lead " ++ lead_id lead)])%list
    /\ log w_ok
       = (log w
            ++ [mkLogRecord INFO
                  ("Audit: lead_imported for lead " ++ lead_id lead)])%list
    /\ List.filter is_error (log w_fail) = List.filter is_error (log w).
Proof.
  intros Hc Ht Hdb.
  assert (admits lead = true) as Hadm by (apply admits_spec; auto).
  pose proof (same_unregulated_encrypt_lead self (with_s3 (Some e) env) lead)
    as S.
  destruct S as (Sid & _).
  eexists. eexists.
  split; [apply (loop_body_stored environ self (with_s3 (Some e) env)
                   lead n w Hadm Hdb)|].
  split; [apply (loop_body_stored environ self (with_s3 None env)
                   lead n w Hadm Hdb)|].
  cbn [audit_file insurance_leads bucket log s3_raises with_s3].
  split; [reflexivity|]. split; [reflexivity|]. split; [reflexivity|].
  split; [reflexivity|]. split; [reflexivity|].
  split; [now rewrite Sid|]. split; [reflexivity|].
  rewrite Sid, List.filter_app. simpl. now rewrite app_nil_r.
Qed.

Lemma archive_failure_keeps_record_stored_witness :
  exists w_fail w_ok : World,
    LeadImporter.loop_body ∅ sample_importer
      (with_s3 (Some (Exception "EndpointConnectionError" "S3 unreachable"))
         (sample_env None None))
      (sample_lead "LEAD-1" true true) 0 empty_world
    = (Ok (0 + 1), w_fail)
    /\ LeadImporter.loop_body ∅ sample_importer
         (with_s3 None (sample_env None None))
         (sample_lead "LEAD-1" true true) 0 empty_world
       = (Ok (0 + 1), w_ok)
    /\ audit_file w_fail
       = (audit_file empty_world
            ++ [mkAuditEvent "2025-11-14T09:30:00+00:00" "lead_imported"
                  "LEAD-1"
                  [("source", JStr "csv");
                   ("coverage_type", JStr "aca");
                   ("encrypted", JBool true)]
                  "system" "203.0.113.7"])%list
    /\ audit_file w_ok = audit_file w_fail
    /\ insurance_leads w_ok = insurance_leads w_fail
    /\ insurance_leads w_fail
       = insert_on_conflict
           (LeadImporter._encrypt_lead sample_importer (sample_env None None)
              (sample_lead "LEAD-1" true true))
           (insurance_leads empty_world)
    /\ bucket w_fail = bucket empty_world
    /\ log w_fail
       = (log empty_world
            ++ [mkLogRecord WARNING
                  "S3 archiving failed for LEAD-1: S3 unreachable";
                mkLogRecord INFO "Audit: lead_imported for lead LEAD-1"])%list
    /\ log w_ok
       = (log empty_world
            ++ [mkLogRecord INFO "Audit: lead_imported for lead LEAD-1"])%list
    /\ List.filter is_error (log w_fail)
       = List.filter is_error (log empty_world).
Proof.
  exact (archive_failure_keeps_record_stored ∅ sample_importer
           (sample_env None None) (sample_lead "LEAD-1" true true) 0
           empty_world (Exception "EndpointConnectionError" "S3 unreachable")
           eq_refl eq_refl eq_refl).
Defined.

(** ** The timestamps of the dataclass *)

(** C9. The defaults of [created_at] and [imported_at] are the values the
    clock had when the class statement ran.  Two leads built without explicit
    timestamps, at any two instants of the run and from any other arguments,
    have the same [created_at] and the same [imported_at]: the ones of module
    load, not the ones of their construction. *)
Theorem dataclass_timestamps_fixed_at_class_definition
    (utcnow_iso : nat -> string) (load_time t1 t2 : nat)
    (id1 src1 fn1 ln1 em1 ph1 : string)
    (dob1 zip1 st1 cov1 inc1 hc1 : option string) (cc1 : option bool)
    (pct1 notes1 : option string) (cg1 tc1 : option bool)
    (id2 src2 fn2 ln2 em2 ph2 : string)
    (dob2 zip2 st2 cov2 inc2 hc2 : option string) (cc2 : option bool)
    (pct2 notes2 : option string) (cg2 tc2 : option bool) :
  let cls := class_InsuranceLead utcnow_iso load_time in
  let lead1 :=
    InsuranceLead_init cls t1 id1 src1 fn1 ln1 em1 ph1 dob1 zip1 st1 cov1
      inc1 hc1 cc1 pct1 notes1 None None cg1 tc1 in
  let lead2 :=
    InsuranceLead_init cls t2 id2 src2 fn2 ln2 em2 ph2 dob2 zip2 st2 cov2
      inc2 hc2 cc2 pct2 notes2 None None cg2 tc2 in
  created_at lead1 = created_at lead2
  /\ imported_at lead1 = imported_at lead2
  /\ created_at lead2 = utcnow_iso load_time
  /\ imported_at lead2 = utcnow_iso (S load_time).
Proof.
  intros cls lead1 lead2. subst cls lead1 lead2.
  unfold InsuranceLead_init, class_InsuranceLead. simpl.
  repeat split.
Qed.

(** ** Key material *)

Lemma init_with_generated_key {F : FernetAPI} (HF : FernetContract F)
    (environ : gmap string string) (r : entropy) (w : World) :
  environ !! "HIPAA_ENCRYPTION_KEY" = None ->
  exists c : fernet,
    Fernet (Fernet_generate_key r) = Some c
    /\ LeadImporter.init environ r w
       = (Ok (LeadImporter.mk (HIPAACompliantEncryption.mk c)),
          set_log
            (log w
               ++ [mkLogRecord INFO "Initialized HIPAA encryption";
                   mkLogRecord INFO
                     "Audit logging to /tmp/insurance_lead_audit.jsonl";
                   mkLogRecord INFO "Initialized LeadImporter"]) w).
Proof.
  intros Hkey.
  destruct (Fernet_generate_key_valid r) as (c & Hc).
  exists c. split; [exact Hc|].
  unfold LeadImporter.init, LeadImporter.ENCRYPTION_KEY,
    HIPAACompliantEncryption.init.
  rewrite Hkey, Hc. destruct w. cbn. rewrite <- !app_assoc. reflexivity.
Qed.

Lemma init_with_malformed_key {F : FernetAPI}
    (environ : gmap string string) (r : entropy) (w : World) (s : string) :
  environ !! "HIPAA_ENCRYPTION_KEY" = Some s ->
  Fernet (str_encode s) = None ->
  LeadImporter.init environ r w
  = (Raise (Exception "ValueError"
              "Fernet key must be 32 url-safe base64-encoded bytes."), w).
Proof.
  intros Hkey Hbad.
  unfold LeadImporter.init, LeadImporter.ENCRYPTION_KEY,
    HIPAACompliantEncryption.init.
  now rewrite Hkey, Hbad.
Qed.

(** C4, as stated, does not hold: with no [HIPAA_ENCRYPTION_KEY] in the
    environment the run does not fail; the admitted record of the batch is
    encrypted, stored and audited. *)
Lemma run_without_key_processes_records :
  exists w' : World,
    (∅ : gmap string string) !! "HIPAA_ENCRYPTION_KEY" = None
    /\ @LeadImporter.main ToyFernet.api ∅ x07
         (fun _ => sample_env None None)
         [sample_lead "LEAD-1" true true] empty_world
       = (Ok (Some 1), w')
    /\ length (insurance_leads w') = 1
    /\ map event_type (audit_file w') = ["lead_imported"].
Proof.
  eexists. split; [reflexivity|]. split; [vm_compute; reflexivity|].
  split; reflexivity.
Qed.

(** C4, amended. With a Fernet that meets its contract: when
    [HIPAA_ENCRYPTION_KEY] is absent, the key is the one [Fernet.generate_key]
    made at module load, the importer is constructed and the batch is
    processed, one audit line per record.  The run fails before any record is
    processed, with the world untouched, when the configured key is one that
    [Fernet] refuses: that failure is raised by the constructor and is not
    handled per record. *)
Theorem absent_key_is_generated_malformed_key_aborts {F : FernetAPI}
    (HF : FernetContract F) (environ : gmap string string) (r : entropy)
    (envs : nat -> RecordEnv) (leads : list InsuranceLead) (w : World) :
  (environ !! "HIPAA_ENCRYPTION_KEY" = None ->
   exists (c : fernet) (w' : World),
     Fernet (Fernet_generate_key r) = Some c
     /\ LeadImporter.main environ r envs leads w
        = (Ok (match leads with
               | [] => None
               | _ :: _ => Some (count_stored envs 0 leads)
               end), w')
     /\ audit_file w'
        = (audit_file w ++ per_record (audit_entry environ) envs 0 leads)%list)
  /\ (forall s : string,
        environ !! "HIPAA_ENCRYPTION_KEY" = Some s ->
        Fernet (str_encode s) = None ->
        exists e : exn,
          LeadImporter.main environ r envs leads w = (Raise e, w)).
Proof.
  split.
  - intros Hkey.
    destruct (init_with_generated_key HF environ r w Hkey) as (c & Hc & Hinit).
    exists c. unfold LeadImporter.main, bind. rewrite Hinit.
    destruct leads as [|lead rest].
    + eexists. split; [exact Hc|]. split; [reflexivity|].
      simpl. now rewrite app_nil_r.
    + match goal with
      | |- context [LeadImporter.process_leads ?env ?self ?es ?ls ?w0] =>
          destruct (process_leads_run env self es ls w0)
            as (w1 & E & A & _ & _)
      end.
      rewrite E. eexists. split; [exact Hc|]. split; [reflexivity|].
      simpl. rewrite A. reflexivity.
  - intros s Hkey Hbad. eexists.
    unfold LeadImporter.main, bind.
    now rewrite (init_with_malformed_key environ r w s Hkey Hbad).
Qed.

Lemma absent_key_is_generated_malformed_key_aborts_witness :
  ((∅ : gmap string string) !! "HIPAA_ENCRYPTION_KEY" = None ->
   exists (c : @fernet ToyFernet.api) (w' : World),
     @Fernet ToyFernet.api (@Fernet_generate_key ToyFernet.api x07) = Some c
     /\ @LeadImporter.main ToyFernet.api ∅ x07
          (fun _ => sample_env None None)
          [sample_lead "LEAD-1" true true; sample_lead "LEAD-2" true false]
          empty_world
        = (Ok (Some (count_stored (fun _ => sample_env None None) 0
                       [sample_lead "LEAD-1" true true;
                        sample_lead "LEAD-2" true false])), w')
     /\ audit_file w'
        = (audit_file empty_world
             ++ per_record (audit_entry ∅) (fun _ => sample_env None None) 0
                  [sample_lead "LEAD-1" true true;
                   sample_lead "LEAD-2" true false])%list)
  /\ (forall s : string,
        (∅ : gmap string string) !! "HIPAA_ENCRYPTION_KEY" = Some s ->
        @Fernet ToyFernet.api (str_encode s) = None ->
        exists e : exn,
          @LeadImporter.main ToyFernet.api ∅ x07
            (fun _ => sample_env None None)
            [sample_lead "LEAD-1" true true; sample_lead "LEAD-2" true false]
            empty_world
          = (Raise e, empty_world)).
Proof.
  exact (absent_key_is_generated_malformed_key_aborts toy_contract ∅ x07
           (fun _ => sample_env None None)
           [sample_lead "LEAD-1" true true; sample_lead "LEAD-2" true false]
           empty_world).
Defined.

(** ** Runs on sample data *)

(** Three records, one of them without the TCPA flag: two are stored, one is
    rejected, three audit lines. *)
Example batch_with_one_rejected :
  exists w' : World,
    LeadImporter.process_leads ∅ sample_importer
      (fun _ => sample_env None None)
      [sample_lead "LEAD-1" true true; sample_lead "LEAD-2" true false;
       sample_lead "LEAD-3" true true] empty_world
    = (Ok 2, w')
    /\ map event_type (audit_file w')
       = ["lead_imported"; "lead_rejected"; "lead_imported"]
    /\ map lead_id (insurance_leads w') = ["LEAD-1"; "LEAD-3"].
Proof.
  eexists. split; [vm_compute; reflexivity|]. split; reflexivity.
Qed.

(** Two admitted records, the database refusing the first: the second is
    still stored. *)
Example batch_with_one_store_failure :
  exists w' : World,
    LeadImporter.process_leads ∅ sample_importer (db_down_at 0)
      [sample_lead "LEAD-1" true true; sample_lead "LEAD-2" true true]
      empty_world
    = (Ok 1, w')
    /\ map event_type (audit_file w')
       = ["lead_import_failed"; "lead_imported"]
    /\ map details (audit_file w')
       = [[("error", JStr "connection refused")];
          [("source", JStr "csv"); ("coverage_type", JStr "aca");
           ("encrypted", JBool true)]]
    /\ map lead_id (insurance_leads w') = ["LEAD-2"].
Proof.
  eexists. split; [vm_compute; reflexivity|]. repeat split.
Qed.

(** The same batch imported twice: no new row the second time. *)
Example batch_imported_twice :
  exists w1 w2 : World,
    LeadImporter.process_leads ∅ sample_importer
      (fun _ => sample_env None None)
      [sample_lead "LEAD-1" true true; sample_lead "LEAD-2" true true]
      empty_world
    = (Ok 2, w1)
    /\ LeadImporter.process_leads ∅ sample_importer
         (fun _ => sample_env None None)
         [sample_lead "LEAD-1" true true; sample_lead "LEAD-2" true true] w1
       = (Ok 2, w2)
    /\ map lead_id (insurance_leads w2) = ["LEAD-1"; "LEAD-2"].
Proof.
  eexists. eexists. split; [vm_compute; reflexivity|].
  split; [vm_compute; reflexivity|]. reflexivity.
Qed.

(** A key that [Fernet] refuses: the constructor raises and nothing is
    processed. *)
Example run_with_malformed_key :
  @LeadImporter.main ToyFernet.api {["HIPAA_ENCRYPTION_KEY" := "too-short"]}
    x07 (fun _ => sample_env None None) [sample_lead "LEAD-1" true true]
    empty_world
  = (Raise (Exception "ValueError"
              "Fernet key must be 32 url-safe base64-encoded bytes."),
     empty_world).
Proof. vm_compute. reflexivity. Qed.

(** The regulated fields of the sample lead after [_encrypt_lead]: the empty
    and the absent ones are as they were. *)
Example sample_lead_protected :
  let protected :=
    LeadImporter._encrypt_lead sample_importer (sample_env None None)
      (sample_lead "LEAD-1" true true) in
  household_income protected = None
  /\ health_conditions protected = Some EmptyString
  /\ email protected <> "ada@example.org"
  /\ HIPAACompliantEncryption.decrypt (LeadImporter.encryption sample_importer)
       (email protected) = Ok "ada@example.org"
  /\ first_name protected = "Ada".
Proof.
  vm_compute. repeat split; discriminate.
Qed.

(** ** What a batch does to the table and to the bucket *)

Section SinksOfBatch.
Context {F : FernetAPI}.
Variables (environ : gmap string string) (self : LeadImporter.t).

Lemma loop_body_sinks (env : RecordEnv) (lead : InsuranceLead) (n : nat)
    (w : World) :
  insurance_leads (LeadImporter.loop_body environ self env lead n w).2
  = upsert_all (stored_row self env lead) (insurance_leads w)
  /\ bucket (LeadImporter.loop_body environ self env lead n w).2
     = put_all (archived_object self env lead) (bucket w).
Proof.
  unfold stored_row, archived_object.
  rewrite <- is_stored_outcome_of. unfold outcome_of.
  destruct (admits lead) eqn:H.
  - destruct (db_raises env) as [e|] eqn:E.
    + rewrite (loop_body_failed _ _ _ _ _ _ e H E). split; reflexivity.
    + rewrite (loop_body_stored _ _ _ _ _ _ H E). simpl.
      destruct (s3_raises env); split; reflexivity.
  - rewrite (loop_body_rejected _ _ _ _ _ _ H). split; reflexivity.
Qed.

Lemma for_lead_in_sinks (envs : nat -> RecordEnv) (leads : list InsuranceLead) :
  forall (i n : nat) (w : World),
    insurance_leads (LeadImporter.for_lead_in environ self envs i leads n w).2
    = upsert_all (concat (per_record (stored_row self) envs i leads))
        (insurance_leads w)
    /\ bucket (LeadImporter.for_lead_in environ self envs i leads n w).2
       = put_all (concat (per_record (archived_object self) envs i leads))
           (bucket w).
Proof.
  induction leads as [|lead rest IH]; intros i n w; [split; reflexivity|].
  cbn [LeadImporter.for_lead_in per_record concat]. unfold bind.
  destruct (loop_body_sinks (envs i) lead n w) as (T1 & B1).
  destruct (loop_body_run environ self (envs i) lead n w) as (w1 & E1 & _).
  rewrite E1 in T1, B1 |- *. simpl in T1, B1.
  destruct (IH (S i) (n + (if is_stored (outcome_of (envs i) lead)
                            then 1 else 0)) w1) as (T2 & B2).
  rewrite T2, B2, T1, B1. unfold upsert_all, put_all.
  now rewrite !fold_left_app.
Qed.

Lemma process_leads_sinks (envs : nat -> RecordEnv)
    (leads : list InsuranceLead) (w : World) :
  insurance_leads (LeadImporter.process_leads environ self envs leads w).2
  = upsert_all (concat (per_record (stored_row self) envs 0 leads))
      (insurance_leads w)
  /\ bucket (LeadImporter.process_leads environ self envs leads w).2
     = put_all (concat (per_record (archived_object self) envs 0 leads))
         (bucket w).
Proof.
  unfold LeadImporter.process_leads, bind, logger, modify. simpl.
  match goal with
  | |- context [LeadImporter.for_lead_in _ _ _ 0 leads 0 ?w0] =>
      destruct (for_lead_in_run environ self envs leads 0 0 w0)
        as (w1 & E & _);
      destruct (for_lead_in_sinks envs leads 0 0 w0) as (T & B);
      rewrite E in T, B |- *
  end.
  simpl in *. auto.
Qed.
End SinksOfBatch.

(** ** Upserts, one after the other *)

Lemma same_but_imported_at_refl (a : InsuranceLead) : same_but_imported_at a a.
Proof. repeat split. Qed.

Lemma same_but_imported_at_trans (a b c : InsuranceLead) :
  same_but_imported_at a b -> same_but_imported_at b c ->
  same_but_imported_at a c.
Proof. unfold same_but_imported_at. intuition congruence. Qed.

Lemma same_but_imported_at_set (v : string) (a : InsuranceLead) :
  same_but_imported_at (set_imported_at v a) a.
Proof. repeat split. Qed.

Lemma insert_on_conflict_ids (lead : InsuranceLead) (rows : list InsuranceLead)
    (k : string) :
  k ∈ map lead_id (insert_on_conflict lead rows)
  <-> k ∈ map lead_id rows \/ k = lead_id lead.
Proof.
  destruct (decide (lead_id lead ∈ map lead_id rows)) as [H|H].
  - rewrite (insert_on_conflict_existing _ _ H), update_keeps_ids.
    split; [auto|]. intros [Hk| ->]; auto.
  - rewrite (insert_on_conflict_fresh _ _ H), map_app, elem_of_app. simpl.
    rewrite list_elem_of_singleton. reflexivity.
Qed.

Lemma insert_on_conflict_keeps_row (lead row : InsuranceLead)
    (rows : list InsuranceLead) :
  primary_key rows -> row ∈ rows ->
  exists row' : InsuranceLead,
    row' ∈ insert_on_conflict lead rows
    /\ select_by_id (lead_id row) (insert_on_conflict lead rows) = [row']
    /\ same_but_imported_at row' row.
Proof.
  intros PK Hin.
  pose proof (select_by_id_unique rows row PK Hin) as Hsel.
  destruct (decide (lead_id lead ∈ map lead_id rows)) as [H|H].
  - rewrite (insert_on_conflict_existing _ _ H), select_by_id_update.
    destruct (String.eqb (lead_id lead) (lead_id row)) eqn:E.
    + exists (set_imported_at (imported_at lead) row).
      rewrite Hsel. split; [|split; [reflexivity|apply same_but_imported_at_set]].
      apply list_elem_of_fmap. exists row. split; [|exact Hin].
      apply String.eqb_eq in E. unfold has_key.
      replace (String.eqb (lead_id row) (lead_id lead)) with true;
        [reflexivity|]. symmetry. apply String.eqb_eq. congruence.
    + exists row. rewrite Hsel.
      split; [|split; [reflexivity|apply same_but_imported_at_refl]].
      apply list_elem_of_fmap. exists row. split; [|exact Hin].
      apply String.eqb_neq in E. unfold has_key.
      replace (String.eqb (lead_id row) (lead_id lead)) with false;
        [reflexivity|]. symmetry. apply String.eqb_neq. congruence.
  - rewrite (insert_on_conflict_fresh _ _ H). exists row.
    split; [apply elem_of_app; auto|].
    split; [|apply same_but_imported_at_refl].
    unfold select_by_id in *. rewrite List.filter_app, Hsel. simpl.
    replace (has_key (lead_id row) lead) with false; [reflexivity|].
    symmetry. unfold has_key. apply String.eqb_neq. intros Heq.
    apply H. rewrite Heq. apply list_elem_of_fmap. eauto.
Qed.

Lemma upsert_all_primary_key (new rows : list InsuranceLead) :
  primary_key rows -> primary_key (upsert_all new rows).
Proof.
  revert rows. induction new as [|l new IH]; intros rows PK; [exact PK|].
  simpl. apply IH. now apply insert_on_conflict_primary_key.
Qed.

Lemma upsert_all_ids (new rows : list InsuranceLead) (k : string) :
  k ∈ map lead_id (upsert_all new rows)
  <-> k ∈ map lead_id rows \/ k ∈ map lead_id new.
Proof.
  revert rows. induction new as [|l new IH]; intros rows; simpl.
  - split; [auto|]. intros [H|H]; [exact H|inversion H].
  - rewrite IH, insert_on_conflict_ids, elem_of_cons. tauto.
Qed.

Lemma upsert_all_keeps_row (new rows : list InsuranceLead)
    (row : InsuranceLead) :
  primary_key rows -> row ∈ rows ->
  exists row' : InsuranceLead,
    select_by_id (lead_id row) (upsert_all new rows) = [row']
    /\ same_but_imported_at row' row.
Proof.
  revert rows row. induction new as [|l new IH]; intros rows row PK Hin.
  - exists row. split; [now apply select_by_id_unique|].
    apply same_but_imported_at_refl.
  - simpl.
    destruct (insert_on_conflict_keeps_row l row rows PK Hin)
      as (row1 & Hin1 & _ & S1).
    destruct (IH _ row1 (insert_on_conflict_primary_key l rows PK) Hin1)
      as (row2 & Hsel2 & S2).
    exists row2. split.
    + destruct S1 as (Hid & _). now rewrite <- Hid.
    + eapply same_but_imported_at_trans; eassumption.
Qed.


Lemma insert_on_conflict_origin (lead row' : InsuranceLead)
    (rows : list InsuranceLead) :
  row' ∈ insert_on_conflict lead rows ->
  (exists row, row ∈ rows /\ same_but_imported_at row' row) \/ row' = lead.
Proof.
  unfold insert_on_conflict.
  destruct (existsb (has_key (lead_id lead)) rows).
  - intros H. apply list_elem_of_fmap in H as (row & -> & Hin).
    left. exists row. split; [exact Hin|].
    destruct (has_key (lead_id lead) row);
      [apply same_but_imported_at_set | apply same_but_imported_at_refl].
  - intros H. apply elem_of_app in H as [H|H].
    + left. exists row'. split; [exact H|apply same_but_imported_at_refl].
    + right. now apply list_elem_of_singleton in H.
Qed.

Lemma upsert_all_origin (new rows : list InsuranceLead) (row' : InsuranceLead) :
  row' ∈ upsert_all new rows ->
  (exists row, row ∈ rows /\ same_but_imported_at row' row)
  \/ (exists lead, lead ∈ new /\ same_but_imported_at row' lead).
Proof.
  revert rows. induction new as [|l new IH]; intros rows H; simpl in H.
  - left. exists row'. split; [exact H|apply same_but_imported_at_refl].
  - destruct (IH _ H) as [(row & Hin & S)|(lead & Hin & S)].
    + destruct (insert_on_conflict_origin _ _ _ Hin) as [(r0 & Hin0 & S0)| ->].
      * left. exists r0. split; [exact Hin0|].
        eapply same_but_imported_at_trans; eassumption.
      * right. exists l. split; [constructor|exact S].
    + right. exists lead. split; [now constructor|exact S].
Qed.

Lemma getattr_same_but_imported_at (a b : InsuranceLead) (f : hipaa_field) :
  same_but_imported_at a b -> getattr a f = getattr b f.
Proof.
  unfold same_but_imported_at. intros H.
  destruct f; simpl; intuition congruence.
Qed.

Section StoredRows.
Context {F : FernetAPI}.
Variables (self : LeadImporter.t) (envs : nat -> RecordEnv).

Lemma admitted_and_stored_spec (env : RecordEnv) (lead : InsuranceLead) :
  admitted_and_stored env lead = true
  <-> consent_given lead = true /\ tcpa_compliant lead = true
      /\ db_raises env = None.
Proof.
  unfold admitted_and_stored.
  destruct (consent_given lead), (tcpa_compliant lead), (db_raises env);
    simpl; intuition congruence.
Qed.

Lemma lead_id_encrypt_lead (env : RecordEnv) (lead : InsuranceLead) :
  lead_id (LeadImporter._encrypt_lead self env lead) = lead_id lead.
Proof. apply (same_unregulated_encrypt_lead self env lead). Qed.

Lemma elem_of_stored_rows (leads : list InsuranceLead) (i : nat)
    (row : InsuranceLead) :
  row ∈ concat (per_record (stored_row self) envs i leads)
  <-> exists (k : nat) (lead : InsuranceLead),
        leads !! k = Some lead
        /\ admitted_and_stored (envs (i + k)) lead = true
        /\ row = LeadImporter._encrypt_lead self (envs (i + k)) lead.
Proof.
  split.
  - intros H. apply elem_of_concat_per_record in H as (k & lead & Hk & H).
    exists k, lead. unfold stored_row in H.
    destruct (admitted_and_stored (envs (i + k)) lead); [|inversion H].
    apply list_elem_of_singleton in H. auto.
  - intros (k & lead & Hk & Hs & ->).
    apply (concat_per_record_elem_of _ _ _ i k lead); [exact Hk|].
    unfold stored_row. rewrite Hs. constructor.
Qed.

Lemma stored_ids (leads : list InsuranceLead) (k : string) :
  k ∈ map lead_id (concat (per_record (stored_row self) envs 0 leads))
  <-> exists (i : nat) (lead : InsuranceLead),
        leads !! i = Some lead /\ lead_id lead = k
        /\ admitted_and_stored (envs i) lead = true.
Proof.
  rewrite list_elem_of_fmap. split.
  - intros (row & -> & H). apply elem_of_stored_rows in H as (i & lead & Hi & Hs & ->).
    exists i, lead. rewrite lead_id_encrypt_lead. auto.
  - intros (i & lead & Hi & <- & Hs).
    exists (LeadImporter._encrypt_lead self (envs i) lead).
    rewrite lead_id_encrypt_lead. split; [reflexivity|].
    apply elem_of_stored_rows. exists i, lead. auto.
Qed.
End StoredRows.

Lemma process_leads_table {F : FernetAPI} (environ : gmap string string)
    (self : LeadImporter.t) (envs : nat -> RecordEnv)
    (leads : list InsuranceLead) (w : World) :
  exists w' : World,
    LeadImporter.process_leads environ self envs leads w
    = (Ok (count_stored envs 0 leads), w')
    /\ insurance_leads w'
       = upsert_all (concat (per_record (stored_row self) envs 0 leads))
           (insurance_leads w)
    /\ bucket w'
       = put_all (concat (per_record (archived_object self) envs 0 leads))
           (bucket w).
Proof.
  destruct (process_leads_run environ self envs leads w) as (w' & E & _).
  destruct (process_leads_sinks environ self envs leads w) as (T & B).
  rewrite E in T, B. exists w'. auto.
Qed.

(** X1. [process_leads] keeps [lead_id] unique in the table: when no two
    rows share a [lead_id] before the batch, none do after it, whatever the
    batch holds (repeated ids included) and whatever the database and S3
    answer. *)
Theorem process_leads_keeps_lead_id_unique {F : FernetAPI}
    (environ : gmap string string) (self : LeadImporter.t)
    (envs : nat -> RecordEnv) (leads : list InsuranceLead) (w : World) :
  primary_key (insurance_leads w) ->
  exists (n : nat) (w' : World),
    LeadImporter.process_leads environ self envs leads w = (Ok n, w')
    /\ primary_key (insurance_leads w').
Proof.
  intros PK.
  destruct (process_leads_table environ self envs leads w) as (w' & E & T & _).
  eexists. exists w'. split; [exact E|].
  rewrite T. now apply upsert_all_primary_key.
Qed.

Lemma process_leads_keeps_lead_id_unique_witness :
  exists (n : nat) (w' : World),
    LeadImporter.process_leads ∅ sample_importer
      (fun _ => sample_env None None)
      [sample_lead "LEAD-2" true true; sample_lead "LEAD-1" true true;
       sample_lead "LEAD-2" true true] world_with_row
    = (Ok n, w')
    /\ primary_key (insurance_leads w').
Proof.
  apply (process_leads_keeps_lead_id_unique ∅ sample_importer
           (fun _ => sample_env None None)
           [sample_lead "LEAD-2" true true; sample_lead "LEAD-1" true true;
            sample_lead "LEAD-2" true true] world_with_row).
  unfold primary_key. simpl. apply NoDup_singleton.
Defined.

(** X2. After a batch the table holds a [lead_id] exactly when it held it
    before or the batch has a record with that [lead_id], both flags set,
    whose store did not raise: a rejected record and a record whose store
    raised add no row. *)
Theorem process_leads_table_ids {F : FernetAPI}
    (environ : gmap string string) (self : LeadImporter.t)
    (envs : nat -> RecordEnv) (leads : list InsuranceLead) (w : World) :
  exists (n : nat) (w' : World),
    LeadImporter.process_leads environ self envs leads w = (Ok n, w')
    /\ forall k : string,
         k ∈ map lead_id (insurance_leads w')
         <-> k ∈ map lead_id (insurance_leads w)
             \/ exists (i : nat) (lead : InsuranceLead),
                  leads !! i = Some lead /\ lead_id lead = k
                  /\ consent_given lead = true /\ tcpa_compliant lead = true
                  /\ db_raises (envs i) = None.
Proof.
  destruct (process_leads_table environ self envs leads w) as (w' & E & T & _).
  eexists. exists w'. split; [exact E|]. intros k.
  rewrite T, upsert_all_ids, stored_ids.
  split; (intros [H|(i & lead & Hi & Hk & Hs)]; [now left|right]);
    exists i, lead; split; auto; split; auto;
    now apply admitted_and_stored_spec.
Qed.

(** X3. A batch never deletes or rewrites a row: with [lead_id] unique in
    the table, every row present before the batch is, after it, the one row
    with its [lead_id], equal to it in every column other than
    [imported_at]. *)
Theorem process_leads_keeps_existing_rows {F : FernetAPI}
    (environ : gmap string string) (self : LeadImporter.t)
    (envs : nat -> RecordEnv) (leads : list InsuranceLead) (w : World)
    (row : InsuranceLead) :
  primary_key (insurance_leads w) ->
  row ∈ insurance_leads w ->
  exists (n : nat) (w' : World) (row' : InsuranceLead),
    LeadImporter.process_leads environ self envs leads w = (Ok n, w')
    /\ select_by_id (lead_id row) (insurance_leads w') = [row']
    /\ same_but_imported_at row' row.
Proof.
  intros PK Hin.
  destruct (process_leads_table environ self envs leads w) as (w' & E & T & _).
  destruct (upsert_all_keeps_row
              (concat (per_record (stored_row self) envs 0 leads))
              (insurance_leads w) row PK Hin) as (row' & Hsel & S).
  eexists. exists w', row'. split; [exact E|]. rewrite T. auto.
Qed.

Lemma process_leads_keeps_existing_rows_witness :
  exists (n : nat) (w' : World) (row' : InsuranceLead),
    LeadImporter.process_leads ∅ sample_importer
      (fun _ => sample_env None None)
      [sample_lead "LEAD-2" true true;
       set_imported_at "2025-11-15T10:00:00+00:00"
         (sample_lead "LEAD-1" true true)] world_with_row
    = (Ok n, w')
    /\ select_by_id (lead_id (sample_lead "LEAD-1" true true))
         (insurance_leads w') = [row']
    /\ same_but_imported_at row' (sample_lead "LEAD-1" true true).
Proof.
  apply (process_leads_keeps_existing_rows ∅ sample_importer
           (fun _ => sample_env None None)
           [sample_lead "LEAD-2" true true;
            set_imported_at "2025-11-15T10:00:00+00:00"
              (sample_lead "LEAD-1" true true)] world_with_row
           (sample_lead "LEAD-1" true true)).
  - unfold primary_key. simpl. apply NoDup_singleton.
  - simpl. apply list_elem_of_here.
Defined.



(** X5. Every row that a batch adds under a new [lead_id] comes from an
    admitted record of the batch with that [lead_id], as protected by
    [_encrypt_lead]: each of its five regulated columns is absent or empty as
    in that record, or the Fernet token of the record's value.  No plaintext
    regulated value of the batch enters the table. *)
Theorem new_rows_are_protected {F : FernetAPI}
    (environ : gmap string string) (self : LeadImporter.t)
    (envs : nat -> RecordEnv) (leads : list InsuranceLead) (w : World) :
  exists (n : nat) (w' : World),
    LeadImporter.process_leads environ self envs leads w = (Ok n, w')
    /\ forall row' : InsuranceLead,
         row' ∈ insurance_leads w' ->
         lead_id row' ∉ map lead_id (insurance_leads w) ->
         exists (i : nat) (lead : InsuranceLead),
           leads !! i = Some lead
           /\ lead_id lead = lead_id row'
           /\ consent_given lead = true /\ tcpa_compliant lead = true
           /\ same_but_imported_at row'
                (LeadImporter._encrypt_lead self (envs i) lead)
           /\ forall f : hipaa_field,
                empty_or_ciphertext self (envs i) f
                  (getattr lead f) (getattr row' f).
Proof.
  destruct (process_leads_table environ self envs leads w) as (w' & E & T & _).
  eexists. exists w'. split; [exact E|]. intros row' Hin Hnew.
  rewrite T in Hin.
  apply upsert_all_origin in Hin as [(row & Hrow & S)|(p & Hp & S)].
  - exfalso. apply Hnew. destruct S as (-> & _).
    apply list_elem_of_fmap. eauto.
  - apply elem_of_stored_rows in Hp as (i & lead & Hi & Hs & ->).
    simpl in Hs. apply admitted_and_stored_spec in Hs as (Hc & Ht & _).
    exists i, lead. split; [exact Hi|]. split.
    { destruct S as (-> & _). symmetry. apply lead_id_encrypt_lead. }
    split; [exact Hc|]. split; [exact Ht|]. split; [exact S|].
    intros f. rewrite (getattr_same_but_imported_at _ _ f S).
    apply empty_or_ciphertext_encrypt_lead.
Qed.

(** ** The bucket *)


Section ArchivedObjects.
Context {F : FernetAPI}.
Variables (self : LeadImporter.t) (envs : nat -> RecordEnv).


End ArchivedObjects.




(** ** The source adapters and [main] *)

Lemma only_logged_refl (w : World) : only_logged w w.
Proof. repeat split. Qed.

Lemma only_logged_trans (w1 w2 w3 : World) :
  only_logged w1 w2 -> only_logged w2 w3 -> only_logged w1 w3.
Proof. unfold only_logged. intuition congruence. Qed.

Lemma logger_only_logged (lvl : level) (msg : string) (w : World) :
  exists w' : World, logger lvl msg w = (Ok tt, w') /\ only_logged w w'.
Proof.
  unfold logger, modify. eexists. split; [reflexivity|].
  destruct (Nat.leb (levelno INFO) (levelno lvl)); repeat split.
Qed.

Section Adapters.
Context {F : FernetAPI}.
Variables (environ : gmap string string) (Body : Type).
Variable http_get : string -> string -> result Body.

Lemma import_from_facebook_empty (date : string) (w : World) :
  exists w' : World,
    Script.import_from_facebook environ Body http_get date w = (Ok [], w')
    /\ only_logged w w'.
Proof.
  unfold Script.import_from_facebook, bind, try_except.
  destruct (logger_only_logged INFO
              ("Importing Facebook leads for date: " ++ date) w)
    as (w1 & -> & L1).
  destruct (negb (truthy_opt (environ !! "FACEBOOK_LEADS_ACCESS_TOKEN"))
            || negb (truthy_opt (environ !! "FACEBOOK_LEADS_PAGE_ID"))).
  - match goal with
    | |- context [logger ?l ?m w1] =>
        destruct (logger_only_logged l m w1) as (w2 & -> & L2)
    end.
    exists w2. split; [reflexivity|].
    eapply only_logged_trans; eassumption.
  - destruct (http_get _ _) as [fb_data|e]; unfold raise, bind;
      match goal with
      | |- context [logger ?l ?m w1] =>
          destruct (logger_only_logged l m w1) as (w2 & -> & L2)
      end;
      (exists w2; split; [reflexivity|];
       eapply only_logged_trans; eassumption).
Qed.

Lemma import_from_api_empty (batch_id : string) (w : World) :
  exists w' : World,
    Script.import_from_api environ Body http_get batch_id w = (Ok [], w')
    /\ only_logged w w'.
Proof.
  unfold Script.import_from_api, bind, try_except.
  destruct (logger_only_logged INFO
              ("Importing leads from API, batch: " ++ batch_id) w)
    as (w1 & -> & L1).
  destruct (negb (truthy_opt (environ !! "AGED_LEADS_API_KEY"))).
  - match goal with
    | |- context [logger ?l ?m w1] =>
        destruct (logger_only_logged l m w1) as (w2 & -> & L2)
    end.
    exists w2. split; [reflexivity|].
    eapply only_logged_trans; eassumption.
  - destruct (http_get _ _) as [api_data|e]; unfold raise, bind;
      match goal with
      | |- context [logger ?l ?m w1] =>
          destruct (logger_only_logged l m w1) as (w2 & -> & L2)
      end;
      (exists w2; split; [reflexivity|];
       eapply only_logged_trans; eassumption).
Qed.

Lemma init_only_logged (r : entropy) (w : World) :
  exists (res : result LeadImporter.t) (w' : World),
    LeadImporter.init environ r w = (res, w') /\ only_logged w w'.
Proof.
  unfold LeadImporter.init.
  destruct (HIPAACompliantEncryption.init _) as [enc|e].
  - eexists. eexists. split; [reflexivity|]. destruct w. repeat split.
  - eexists. eexists. split; [reflexivity|]. apply only_logged_refl.
Qed.
End Adapters.

(** X8. [import_from_facebook] and [import_from_api] return the empty list
    in every case: with or without credentials, whether the HTTP request
    fails or answers, and whatever the body of the answer is (the parsers are
    placeholders).  They change nothing but the log. *)
Theorem placeholder_adapters_import_nothing {F : FernetAPI}
    (environ : gmap string string) (Body : Type)
    (http_get : string -> string -> result Body) (arg : string) (w : World) :
  (exists w' : World,
     Script.import_from_facebook environ Body http_get arg w = (Ok [], w')
     /\ only_logged w w')
  /\ (exists w' : World,
        Script.import_from_api environ Body http_get arg w = (Ok [], w')
        /\ only_logged w w').
Proof.
  split; [apply import_from_facebook_empty | apply import_from_api_empty].
Qed.

(** X9. A run of [main] with [--source facebook] or [--source api] never
    processes a record: whatever the arguments, the environment, the key and
    the answers of the remote API, the table, the bucket and the audit file
    are as they were, and no private method of the importer is entered. *)
Theorem main_facebook_and_api_process_nothing {F : FernetAPI}
    (environ : gmap string string) (Body : Type)
    (http_get : string -> string -> result Body)
    (import_from_csv : string -> M (list InsuranceLead))
    (r : entropy) (envs : nat -> RecordEnv) (args : Args) (w : World) :
  args_source args <> csv ->
  exists (res : result unit) (w' : World),
    Script.main environ Body http_get import_from_csv r envs args w = (res, w')
    /\ only_logged w w'.
Proof.
  intros Hsrc. unfold Script.main, bind.
  destruct (init_only_logged environ r w) as (res0 & w0 & -> & L0).
  destruct res0 as [importer|e].
  2:{ eexists. eexists. split; [reflexivity|exact L0]. }
  unfold Script.import_leads.
  destruct (args_source args); [| contradiction |].
  - destruct (negb (truthy_opt (args_date args))); unfold bind.
    + destruct (logger_only_logged ERROR
                  "--date required for Facebook import" w0)
        as (w1 & -> & L1).
      eexists. eexists. split; [reflexivity|].
      eapply only_logged_trans; eassumption.
    + destruct (import_from_facebook_empty environ Body http_get
                  (default EmptyString (args_date args)) w0)
        as (w1 & -> & L1).
      unfold ret.
      destruct (logger_only_logged WARNING "No leads imported" w1)
        as (w2 & -> & L2).
      eexists. eexists. split; [reflexivity|].
      eapply only_logged_trans; [|exact L2].
      eapply only_logged_trans; eassumption.
  - destruct (negb (truthy_opt (args_batch_id args))); unfold bind.
    + destruct (logger_only_logged ERROR
                  "--batch-id required for API import" w0)
        as (w1 & -> & L1).
      eexists. eexists. split; [reflexivity|].
      eapply only_logged_trans; eassumption.
    + destruct (import_from_api_empty environ Body http_get
                  (default EmptyString (args_batch_id args)) w0)
        as (w1 & -> & L1).
      unfold ret.
      destruct (logger_only_logged WARNING "No leads imported" w1)
        as (w2 & -> & L2).
      eexists. eexists. split; [reflexivity|].
      eapply only_logged_trans; [|exact L2].
      eapply only_logged_trans; eassumption.
Qed.

Lemma main_facebook_and_api_process_nothing_witness :
  exists (res : result unit) (w' : World),
    @Script.main ToyFernet.api
      {["FACEBOOK_LEADS_ACCESS_TOKEN" := "token";
        "FACEBOOK_LEADS_PAGE_ID" := "1234"]}
      string (fun _ _ => Ok "{}") (fun _ => ret [])
      x07 (fun _ => sample_env None None)
      (mkArgs facebook (Some "2025-11-14") None None) world_with_row
    = (res, w')
    /\ only_logged world_with_row w'.
Proof.
  apply (@main_facebook_and_api_process_nothing ToyFernet.api
           {["FACEBOOK_LEADS_ACCESS_TOKEN" := "token";
             "FACEBOOK_LEADS_PAGE_ID" := "1234"]}
           string (fun _ _ => Ok "{}") (fun _ => ret [])
           x07 (fun _ => sample_env None None)
           (mkArgs facebook (Some "2025-11-14") None None) world_with_row).
  discriminate.
Defined.

(** ** More on the encryptor and the field protector *)

(** X10. With a Fernet that meets its contract, under one key: two
    ciphertexts made by [encrypt] are equal only if the plaintexts are equal,
    whatever the two calls draw; and the ciphertext is the empty string
    exactly when the plaintext is. *)
Theorem encrypt_injective_on_plaintext {F : FernetAPI} (HF : FernetContract F)
    (self : HIPAACompliantEncryption.t) (r1 r2 : entropy) (x1 x2 : string) :
  (HIPAACompliantEncryption.encrypt self r1 x1
   = HIPAACompliantEncryption.encrypt self r2 x2 -> x1 = x2)
  /\ (HIPAACompliantEncryption.encrypt self r1 x1 = EmptyString
      <-> x1 = EmptyString).
Proof.
  split.
  - intros E.
    pose proof (decrypt_encrypt HF self r1 x1) as D1.
    pose proof (decrypt_encrypt HF self r2 x2) as D2.
    rewrite E in D1. congruence.
  - split.
    + intros E. destruct (truthy x1) eqn:Ht; [|now apply truthy_false].
      pose proof (encrypt_longer HF self r1 x1 Ht) as L.
      rewrite E in L. simpl in L. lia.
    + intros ->. reflexivity.
Qed.

Lemma encrypt_injective_on_plaintext_witness :
  (HIPAACompliantEncryption.encrypt
     (LeadImporter.encryption sample_importer) x01 "ada@example.org"
   = HIPAACompliantEncryption.encrypt
       (LeadImporter.encryption sample_importer) x02 "quinn@example.org"
   -> "ada@example.org" = "quinn@example.org")
  /\ (HIPAACompliantEncryption.encrypt
        (LeadImporter.encryption sample_importer) x01 "ada@example.org"
      = EmptyString
      <-> "ada@example.org" = EmptyString).
Proof.
  exact (encrypt_injective_on_plaintext toy_contract
           (LeadImporter.encryption sample_importer) x01 x02
           "ada@example.org" "quinn@example.org").
Defined.

(** X11. [_encrypt_lead] changes the five regulated attributes only: the
    [lead_id], the source, the first and last name, the zip code, the state,
    the coverage type, [current_coverage], the contact time, the notes, both
    timestamps and both consent flags of the result are those of the input,
    in plaintext. *)
Theorem encrypt_lead_leaves_other_attributes {F : FernetAPI}
    (self : LeadImporter.t) (env : RecordEnv) (lead : InsuranceLead) :
  let protected := LeadImporter._encrypt_lead self env lead in
  lead_id protected = lead_id lead /\ source protected = source lead
  /\ first_name protected = first_name lead
  /\ last_name protected = last_name lead
  /\ zip_code protected = zip_code lead /\ state protected = state lead
  /\ coverage_type protected = coverage_type lead
  /\ current_coverage protected = current_coverage lead
  /\ preferred_contact_time protected = preferred_contact_time lead
  /\ notes protected = notes lead
  /\ created_at protected = created_at lead
  /\ imported_at protected = imported_at lead
  /\ consent_given protected = consent_given lead
  /\ tcpa_compliant protected = tcpa_compliant lead.
Proof. exact (same_unregulated_encrypt_lead self env lead). Qed.

Lemma encrypt_lead_eq (a b : InsuranceLead) :
  same_unregulated a b ->
  (forall f : hipaa_field, getattr a f = getattr b f) ->
  a = b.
Proof.
  intros S G. destruct a, b. unfold same_unregulated in S. simpl in S.
  pose proof (G Fdate_of_birth) as G1. pose proof (G Fhousehold_income) as G2.
  pose proof (G Fhealth_conditions) as G3. pose proof (G Fphone) as G4.
  pose proof (G Femail) as G5. simpl in G1, G2, G3, G4, G5.
  destruct S as (? & ? & ? & ? & ? & ? & ? & ? & ? & ? & ? & ? & ? & ?).
  injection G4 as ?. injection G5 as ?. subst. reflexivity.
Qed.

(** X12. A lead whose five regulated values are all absent or empty comes
    out of [_encrypt_lead] unchanged: nothing is encrypted, no token is made
    for a value that is not there. *)
Theorem encrypt_lead_blank_is_identity {F : FernetAPI}
    (self : LeadImporter.t) (env : RecordEnv) (lead : InsuranceLead) :
  blank_regulated lead ->
  LeadImporter._encrypt_lead self env lead = lead.
Proof.
  intros Hblank. apply encrypt_lead_eq.
  - apply same_unregulated_encrypt_lead.
  - intros f. rewrite getattr_encrypt_lead. unfold protected_value.
    specialize (Hblank f). destruct (getattr lead f) as [s|]; [|reflexivity].
    simpl in Hblank. now rewrite Hblank.
Qed.

Lemma encrypt_lead_blank_is_identity_witness :
  LeadImporter._encrypt_lead sample_importer (sample_env None None)
    (mkInsuranceLead "LEAD-9" "csv" "Ada" "Quinn" EmptyString EmptyString
       None (Some "94110") (Some "CA") None None (Some EmptyString) None None
       None "2025-11-14T09:00:00+00:00" "2025-11-14T09:00:00+00:00" true true)
  = mkInsuranceLead "LEAD-9" "csv" "Ada" "Quinn" EmptyString EmptyString
      None (Some "94110") (Some "CA") None None (Some EmptyString) None None
      None "2025-11-14T09:00:00+00:00" "2025-11-14T09:00:00+00:00" true true.
Proof.
  apply (encrypt_lead_blank_is_identity sample_importer (sample_env None None)).
  intros f. destruct f; reflexivity.
Defined.

(** X13. [_encrypt_lead] is not idempotent on a value that is there: with a
    Fernet that meets its contract, protecting an already protected lead
    encrypts the ciphertext again.  For a regulated field with a non-empty
    value, the second result differs from the first, one [decrypt] gives back
    the first ciphertext, and only a second [decrypt] gives the plaintext. *)
Theorem encrypt_lead_twice_encrypts_twice {F : FernetAPI}
    (HF : FernetContract F) (self : LeadImporter.t) (env1 env2 : RecordEnv)
    (lead : InsuranceLead) (f : hipaa_field) (s : string) :
  getattr lead f = Some s ->
  s <> EmptyString ->
  exists c1 c2 : string,
    getattr (LeadImporter._encrypt_lead self env1 lead) f = Some c1
    /\ getattr
         (LeadImporter._encrypt_lead self env2
            (LeadImporter._encrypt_lead self env1 lead)) f = Some c2
    /\ c2 <> c1
    /\ HIPAACompliantEncryption.decrypt (LeadImporter.encryption self) c2
       = Ok c1
    /\ HIPAACompliantEncryption.decrypt (LeadImporter.encryption self) c1
       = Ok s.
Proof.
  intros Hs Hne.
  assert (truthy s = true) as Ht.
  { destruct (truthy s) eqn:Ht; [reflexivity|].
    apply truthy_false in Ht. contradiction. }
  set (c1 := HIPAACompliantEncryption.encrypt (LeadImporter.encryption self)
               (drawn env1 f) s).
  assert (truthy c1 = true) as Ht1.
  { apply truthy_length.
    pose proof (encrypt_longer HF (LeadImporter.encryption self)
                  (drawn env1 f) s Ht). subst c1. lia. }
  exists c1,
    (HIPAACompliantEncryption.encrypt (LeadImporter.encryption self)
       (drawn env2 f) c1).
  assert (getattr (LeadImporter._encrypt_lead self env1 lead) f = Some c1)
    as G1.
  { rewrite getattr_encrypt_lead, Hs. unfold protected_value. now rewrite Ht. }
  split; [exact G1|]. split.
  { rewrite getattr_encrypt_lead, G1. unfold protected_value. now rewrite Ht1. }
  split; [now apply encrypt_differs|].
  split; now apply decrypt_encrypt.
Qed.

Lemma encrypt_lead_twice_encrypts_twice_witness :
  exists c1 c2 : string,
    getattr (LeadImporter._encrypt_lead sample_importer (sample_env None None)
               (sample_lead "LEAD-1" true true)) Femail = Some c1
    /\ getattr
         (LeadImporter._encrypt_lead sample_importer (sample_env None None)
            (LeadImporter._encrypt_lead sample_importer (sample_env None None)
               (sample_lead "LEAD-1" true true))) Femail = Some c2
    /\ c2 <> c1
    /\ HIPAACompliantEncryption.decrypt
         (LeadImporter.encryption sample_importer) c2 = Ok c1
    /\ HIPAACompliantEncryption.decrypt
         (LeadImporter.encryption sample_importer) c1 = Ok "ada@example.org".
Proof.
  apply (encrypt_lead_twice_encrypts_twice toy_contract sample_importer
           (sample_env None None) (sample_env None None)
           (sample_lead "LEAD-1" true true) Femail "ada@example.org").
  - reflexivity.
  - discriminate.
Defined.

(** ** The audit trail of a batch *)


(** ** Generated lead ids *)

Example generate_lead_id_sample :
  _generate_lead_id (mkDatetime 2025 11 14 9 30 5 250) (xde, xad, xbe, xef)
  = "LEAD-20251114093005-deadbeef".
Proof. reflexivity. Qed.

Lemma string_length_app (a b : string) :
  String.length (a ++ b) = String.length a + String.length b.
Proof. induction a as [|c a IH]; simpl; [reflexivity | now rewrite IH]. Qed.

Lemma string_app_inj_length (a b c d : string) :
  String.length a = String.length b ->
  (a ++ c = b ++ d)%string -> a = b /\ c = d.
Proof.
  revert b. induction a as [|x a IH]; intros [|y b] L E; simpl in *;
    try discriminate.
  - auto.
  - injection E as -> E. injection L as L.
    destruct (IH b L E) as (-> & ->). auto.
Qed.

Lemma string_singleton_inj (a b : ascii) :
  String a EmptyString = String b EmptyString -> a = b.
Proof. intros E. now injection E. Qed.

Lemma string_pair_inj (a b c d : ascii) :
  String a (String b EmptyString) = String c (String d EmptyString) ->
  a = c /\ b = d.
Proof. intros E. injection E. auto. Qed.

Lemma zero_padded_length (w n : nat) : String.length (zero_padded w n) = w.
Proof.
  revert n. induction w as [|w IH]; intros n; simpl; [reflexivity|].
  rewrite string_length_app, IH. simpl. lia.
Qed.

Lemma digit_char_inj (a b : nat) :
  a < 10 -> b < 10 -> digit_char a = digit_char b -> a = b.
Proof.
  unfold digit_char. intros Ha Hb E.
  apply (f_equal nat_of_ascii) in E.
  rewrite !nat_ascii_embedding in E by lia. lia.
Qed.

Lemma zero_padded_inj (w : nat) :
  forall n m : nat,
    n < 10 ^ w -> m < 10 ^ w -> zero_padded w n = zero_padded w m -> n = m.
Proof.
  induction w as [|w IH]; intros n m Hn Hm E.
  - simpl in Hn, Hm. lia.
  - cbn [zero_padded] in E. rewrite Nat.pow_succ_r' in Hn, Hm.
    apply string_app_inj_length in E as (E1 & E2);
      [|now rewrite !zero_padded_length].
    apply string_singleton_inj in E2.
    apply digit_char_inj in E2; try (apply Nat.mod_upper_bound; lia).
    apply IH in E1; try (apply Nat.Div0.div_lt_upper_bound; lia).
    rewrite (Nat.div_mod_eq n 10), (Nat.div_mod_eq m 10). lia.
Qed.

Lemma hex_char_inj (a b : nat) :
  a < 16 -> b < 16 -> hex_char a = hex_char b -> a = b.
Proof.
  unfold hex_char. intros Ha Hb E.
  apply (f_equal nat_of_ascii) in E.
  destruct (Nat.ltb_spec a 10), (Nat.ltb_spec b 10);
    rewrite !nat_ascii_embedding in E by lia; lia.
Qed.

Lemma hex_of_byte_inj (b1 b2 : byte) : hex_of_byte b1 = hex_of_byte b2 -> b1 = b2.
Proof.
  unfold hex_of_byte. intros E. apply string_pair_inj in E as (E1 & E2).
  pose proof (Byte.to_nat_bounded b1). pose proof (Byte.to_nat_bounded b2).
  apply hex_char_inj in E1; try (apply Nat.Div0.div_lt_upper_bound; lia).
  apply hex_char_inj in E2; try (apply Nat.mod_upper_bound; lia).
  assert (Byte.to_nat b1 = Byte.to_nat b2) as E.
  { rewrite (Nat.div_mod_eq (Byte.to_nat b1) 16),
      (Nat.div_mod_eq (Byte.to_nat b2) 16). lia. }
  pose proof (Byte.of_to_nat b1) as O1. pose proof (Byte.of_to_nat b2) as O2.
  rewrite E in O1. congruence.
Qed.

Lemma hex4_inj (r1 r2 : byte * byte * byte * byte) : hex4 r1 = hex4 r2 -> r1 = r2.
Proof.
  destruct r1 as [[[a0 a1] a2] a3], r2 as [[[b0 b1] b2] b3]. unfold hex4.
  intros E.
  apply string_app_inj_length in E as (E0 & E); [|reflexivity].
  apply string_app_inj_length in E as (E1 & E); [|reflexivity].
  apply string_app_inj_length in E as (E2 & E3); [|reflexivity].
  apply hex_of_byte_inj in E0, E1, E2, E3. congruence.
Qed.

Lemma strftime_length (t : datetime) : String.length (strftime_YmdHMS t) = 14.
Proof.
  unfold strftime_YmdHMS. now rewrite !string_length_app, !zero_padded_length.
Qed.

Lemma strftime_inj (t1 t2 : datetime) :
  four_digit_year t1 -> four_digit_year t2 ->
  strftime_YmdHMS t1 = strftime_YmdHMS t2 -> same_second t1 t2.
Proof.
  unfold four_digit_year, strftime_YmdHMS, same_second.
  intros V1 V2 E.
  apply string_app_inj_length in E as (EY & E);
    [|now rewrite !zero_padded_length].
  apply string_app_inj_length in E as (Em & E);
    [|now rewrite !zero_padded_length].
  apply string_app_inj_length in E as (Ed & E);
    [|now rewrite !zero_padded_length].
  apply string_app_inj_length in E as (EH & E);
    [|now rewrite !zero_padded_length].
  apply string_app_inj_length in E as (EM & ES);
    [|now rewrite !zero_padded_length].
  apply zero_padded_inj in EY, Em, Ed, EH, EM, ES; simpl; lia.
Qed.

Lemma hex4_length (r : byte * byte * byte * byte) : String.length (hex4 r) = 8.
Proof. destruct r as [[[b0 b1] b2] b3]. reflexivity. Qed.

(** X15. An id made by [_generate_lead_id] is LEAD-, fourteen digits, a
    dash and eight hexadecimal digits: 28 characters.  Two generated ids are
    equal exactly when the two calls fall in the same second of the clock and
    draw the same four random bytes; the microseconds play no part, so within
    one second the four bytes alone tell the ids apart. *)
Theorem generated_lead_ids_equal_iff_same_second_and_bytes
    (t1 t2 : datetime) (r1 r2 : byte * byte * byte * byte) :
  four_digit_year t1 ->
  four_digit_year t2 ->
  String.length (_generate_lead_id t1 r1) = 28
  /\ String.prefix "LEAD-" (_generate_lead_id t1 r1) = true
  /\ (_generate_lead_id t1 r1 = _generate_lead_id t2 r2
      <-> same_second t1 t2 /\ r1 = r2).
Proof.
  intros V1 V2. unfold _generate_lead_id. split; [|split].
  - rewrite !string_length_app, strftime_length, hex4_length. reflexivity.
  - reflexivity.
  - split.
    + intros E.
      apply string_app_inj_length in E as (_ & E); [|reflexivity].
      apply string_app_inj_length in E as (Et & E);
        [|now rewrite !strftime_length].
      apply string_app_inj_length in E as (_ & Er); [|reflexivity].
      split; [now apply strftime_inj | now apply hex4_inj].
    + intros ((EY & Em & Ed & EH & EM & ES) & ->).
      unfold strftime_YmdHMS. now rewrite EY, Em, Ed, EH, EM, ES.
Qed.

Lemma generated_lead_ids_equal_iff_same_second_and_bytes_witness :
  String.length
    (_generate_lead_id (mkDatetime 2025 11 14 9 30 5 250) (xde, xad, xbe, xef))
  = 28
  /\ String.prefix "LEAD-"
       (_generate_lead_id (mkDatetime 2025 11 14 9 30 5 250)
          (xde, xad, xbe, xef)) = true
  /\ (_generate_lead_id (mkDatetime 2025 11 14 9 30 5 250) (xde, xad, xbe, xef)
      = _generate_lead_id (mkDatetime 2025 11 14 9 30 5 975)
          (xde, xad, xbe, xef)
      <-> same_second (mkDatetime 2025 11 14 9 30 5 250)
            (mkDatetime 2025 11 14 9 30 5 975)
          /\ (xde, xad, xbe, xef) = (xde, xad, xbe, xef)).
Proof.
  apply (generated_lead_ids_equal_iff_same_second_and_bytes
           (mkDatetime 2025 11 14 9 30 5 250)
           (mkDatetime 2025 11 14 9 30 5 975)
           (xde, xad, xbe, xef) (xde, xad, xbe, xef));
    unfold four_digit_year; simpl; lia.
Defined.

(** ** The refresh of [imported_at] within one process *)

Lemma set_imported_at_same (row : InsuranceLead) :
  set_imported_at (imported_at row) row = row.
Proof. now destruct row. Qed.

Lemma update_same_imported_at (lead : InsuranceLead)
    (rows : list InsuranceLead) :
  (forall row, row ∈ rows -> lead_id row = lead_id lead ->
               imported_at row = imported_at lead) ->
  map (fun row =>
         if has_key (lead_id lead) row
         then set_imported_at (imported_at lead) row else row) rows
  = rows.
Proof.
  induction rows as [|r rows IH]; intros H; [reflexivity|].
  simpl. rewrite IH by (intros row Hin; apply H; now constructor).
  f_equal. destruct (has_key (lead_id lead) r) eqn:E; [|reflexivity].
  apply has_key_spec in E. rewrite <- (H r); [|constructor|exact E].
  apply set_imported_at_same.
Qed.

(** X16. Within one process the refresh of [imported_at] refreshes nothing.
    A lead built without an explicit [imported_at] carries the value fixed
    when the class was defined; when the rows with its [lead_id] were written
    from such leads of the same process, a successful [_store_lead] of its
    protected form leaves the whole table exactly as it was. *)
Theorem reimport_in_one_process_leaves_table_unchanged {F : FernetAPI}
    (self : LeadImporter.t) (env : RecordEnv) (cls : InsuranceLead_class)
    (call_time : nat) (id src fn ln em ph : string)
    (dob zip st cov inc hc : option string) (cc : option bool)
    (pct notes created : option string) (cg tc : option bool) (w : World) :
  let lead :=
    InsuranceLead_init cls call_time id src fn ln em ph dob zip st cov inc hc
      cc pct notes created None cg tc in
  db_raises env = None ->
  id ∈ map lead_id (insurance_leads w) ->
  (forall row, row ∈ insurance_leads w -> lead_id row = id ->
               imported_at row = default_imported_at cls) ->
  exists w' : World,
    LeadImporter._store_lead env (LeadImporter._encrypt_lead self env lead) w
    = (Ok tt, w')
    /\ insurance_leads w' = insurance_leads w.
Proof.
  intros lead Hdb Hin Hrows.
  pose proof (same_unregulated_encrypt_lead self env lead) as S.
  unfold same_unregulated in S.
  destruct S as (Sid & _ & _ & _ & _ & _ & _ & _ & _ & _ & _ & Simp & _).
  eexists. split; [apply (store_lead_ok _ _ _ Hdb)|]. simpl.
  rewrite insert_on_conflict_existing by (rewrite Sid; exact Hin).
  apply update_same_imported_at. intros row Hrow Hid.
  rewrite Simp. rewrite Sid in Hid. now apply Hrows.
Qed.

Lemma reimport_in_one_process_leaves_table_unchanged_witness :
  exists w' : World,
    LeadImporter._store_lead (sample_env None None)
      (LeadImporter._encrypt_lead sample_importer (sample_env None None)
         (InsuranceLead_init
            (mkInsuranceLead_class "2025-11-14T09:00:00+00:00"
               "2025-11-14T09:00:00+00:00")
            7 "LEAD-1" "csv" "Ada" "Quinn" "quinn@example.org" "555-0100"
            None None None None None None None None None None None
            (Some true) (Some true)))
      world_with_row
    = (Ok tt, w')
    /\ insurance_leads w' = insurance_leads world_with_row.
Proof.
  apply (reimport_in_one_process_leaves_table_unchanged sample_importer
           (sample_env None None)
           (mkInsuranceLead_class "2025-11-14T09:00:00+00:00"
              "2025-11-14T09:00:00+00:00")
           7 "LEAD-1" "csv" "Ada" "Quinn" "quinn@example.org" "555-0100"
           None None None None None None None None None None
           (Some true) (Some true) world_with_row).
  - reflexivity.
  - simpl. apply list_elem_of_here.
  - intros row Hrow _. simpl in Hrow.
    apply list_elem_of_singleton in Hrow. now subst row.
Defined.

(** ** The log of a batch *)

Section LogOfBatch.
Context {F : FernetAPI}.
Variables (environ : gmap string string) (self : LeadImporter.t).



End LogOfBatch.



